(** * mypy/fscache.py: the per-transaction file system cache

    A shallow embedding of [FileSystemMetaCache] and [FileSystemCache]
    (mypy/fscache.py).  The two classes memoize [os.stat], [os.listdir]
    and the decoding reader of [mypy.util] for the duration of one
    transaction; [flush] starts the next transaction.

    Python objects are modelled as follows.
    - A [Dict[str, X]] is a [gmap string X].
    - [functools.lru_cache(maxsize=None)(f)] is a dictionary of the
      results [f] returned, consulted before [f] is called; a call that
      raises stores nothing (this is why the source keeps separate
      error dictionaries).
    - A method is a computation in a state-and-exception monad over the
      cache object.  A raised exception keeps the mutations made before
      it was raised, as in Python.
    - The operating system and the decoder are oracles indexed by a
      clock that advances at every call of a primitive, so the file
      system may answer differently each time it is asked. *)

From Stdlib Require Import ZArith Ascii.
From stdpp Require Import gmap strings list fin_maps.

Set Warnings "-clear-no-such-hyp".

Local Open Scope Z_scope.
Local Open Scope string_scope.

(** ** Exceptions *)

(** The exception classes the module can meet.  All of them derive from
    [Exception], which is what [_stat], [_listdir] and the read catch
    and store; [OSError] and its subclasses are the ones the operating
    system reports, and the ones [isfile], [isdir] and [isfile_case]
    catch; [ValueError] is what [os.stat] and [os.listdir] raise on a
    path with an embedded null character; [DecodeError] is the
    decoder's own; [KeyError] is a failed dictionary subscript.
    Interrupts such as [KeyboardInterrupt], which derive from
    [BaseException] only and are not errors of a call, are left out. *)
Inductive exc_class : Type :=
  | FileNotFoundError
  | PermissionError
  | NotADirectoryError
  | IsADirectoryError
  | OSError
  | ValueError
  | DecodeError
  | KeyError
  | Exception.

Record PyExc : Type := mkExc { exc_type : exc_class; exc_args : string }.

#[global] Instance exc_class_eq_dec : EqDecision exc_class.
Proof. solve_decision. Defined.

#[global] Instance PyExc_eq_dec : EqDecision PyExc.
Proof. solve_decision. Defined.

(** [isinstance(e, OSError)] *)
Definition is_OSError (e : PyExc) : bool :=
  match exc_type e with
  | FileNotFoundError | PermissionError | NotADirectoryError
  | IsADirectoryError | OSError => true
  | ValueError | DecodeError | KeyError | Exception => false
  end.

(** [isinstance(e, FileNotFoundError)] *)
Definition is_FileNotFoundError (e : PyExc) : bool :=
  match exc_type e with
  | FileNotFoundError => true
  | _ => false
  end.

(** [isinstance(e, Exception)]: every modelled class derives from it. *)
Definition is_Exception (e : PyExc) : bool := true.

(** The outcome of a call: a value or a raised exception. *)
Inductive result (A : Type) : Type :=
  | Return (a : A)
  | Raise (e : PyExc).
Arguments Return {A} a.
Arguments Raise {A} e.

(** ** [os.stat_result] and the [stat] module *)

Record stat_result : Type := mkStat {
  st_mode : Z;
  st_size : Z;
  st_mtime_ns : Z
}.

(** [stat.S_IFMT(mode)] is [mode & 0o170000]. *)
Definition S_IFMT (mode : Z) : Z := Z.land mode 61440.
(** [stat.S_ISREG]: the file type bits are [0o100000]. *)
Definition S_ISREG (mode : Z) : bool := Z.eqb (S_IFMT mode) 32768.
(** [stat.S_ISDIR]: the file type bits are [0o040000]. *)
Definition S_ISDIR (mode : Z) : bool := Z.eqb (S_IFMT mode) 16384.

(** ** The world outside the cache *)

(** A call of a primitive, recorded with the path it was given. *)
Inductive event : Type :=
  | EvStat (path : string)
  | EvListdir (path : string)
  | EvDecode (path : string).

#[global] Instance event_eq_dec : EqDecision event.
Proof. solve_decision. Defined.

(** The platform: [os.path.split], and what [os.stat], [os.listdir] and
    [mypy.util.read_with_python_encoding] answer at each instant.  The
    decoder returns the text together with its md5 digest. *)
Record World : Type := mkWorld {
  os_path_split : string → string * string;
  os_stat : nat → string → result stat_result;
  os_listdir : nat → string → result (list string);
  util_read_with_python_encoding :
    nat → string → Z * Z → result (string * string)
}.

(** ** The cache object *)

(** The attributes of a [FileSystemCache].  [stat_cache] and
    [listdir_cache] are the dictionaries inside the two [lru_cache]
    wrappers.  [clock] and [trace] belong to the instrumentation: the
    number of primitive calls made so far, and the primitive calls of
    the current transaction, oldest first. *)
Record FileSystemCache : Type := mkCache {
  stat_cache : gmap string stat_result;
  listdir_cache : gmap string (list string);
  stat_error_cache : gmap string PyExc;
  listdir_error_cache : gmap string PyExc;
  pyversion : Z * Z;
  read_cache : gmap string string;
  read_error_cache : gmap string PyExc;
  hash_cache : gmap string string;
  clock : nat;
  trace : list event
}.

Definition set_stat_cache (m : gmap string stat_result)
    (s : FileSystemCache) : FileSystemCache :=
  mkCache m (listdir_cache s) (stat_error_cache s) (listdir_error_cache s)
    (pyversion s) (read_cache s) (read_error_cache s) (hash_cache s)
    (clock s) (trace s).

Definition set_listdir_cache (m : gmap string (list string))
    (s : FileSystemCache) : FileSystemCache :=
  mkCache (stat_cache s) m (stat_error_cache s) (listdir_error_cache s)
    (pyversion s) (read_cache s) (read_error_cache s) (hash_cache s)
    (clock s) (trace s).

Definition set_stat_error_cache (m : gmap string PyExc)
    (s : FileSystemCache) : FileSystemCache :=
  mkCache (stat_cache s) (listdir_cache s) m (listdir_error_cache s)
    (pyversion s) (read_cache s) (read_error_cache s) (hash_cache s)
    (clock s) (trace s).

Definition set_listdir_error_cache (m : gmap string PyExc)
    (s : FileSystemCache) : FileSystemCache :=
  mkCache (stat_cache s) (listdir_cache s) (stat_error_cache s) m
    (pyversion s) (read_cache s) (read_error_cache s) (hash_cache s)
    (clock s) (trace s).

Definition set_read_cache (m : gmap string string)
    (s : FileSystemCache) : FileSystemCache :=
  mkCache (stat_cache s) (listdir_cache s) (stat_error_cache s)
    (listdir_error_cache s) (pyversion s) m (read_error_cache s)
    (hash_cache s) (clock s) (trace s).

Definition set_read_error_cache (m : gmap string PyExc)
    (s : FileSystemCache) : FileSystemCache :=
  mkCache (stat_cache s) (listdir_cache s) (stat_error_cache s)
    (listdir_error_cache s) (pyversion s) (read_cache s) m
    (hash_cache s) (clock s) (trace s).

Definition set_hash_cache (m : gmap string string)
    (s : FileSystemCache) : FileSystemCache :=
  mkCache (stat_cache s) (listdir_cache s) (stat_error_cache s)
    (listdir_error_cache s) (pyversion s) (read_cache s)
    (read_error_cache s) m (clock s) (trace s).

(** A primitive was called: the clock advances and the call is logged. *)
Definition tick (ev : event) (s : FileSystemCache) : FileSystemCache :=
  mkCache (stat_cache s) (listdir_cache s) (stat_error_cache s)
    (listdir_error_cache s) (pyversion s) (read_cache s)
    (read_error_cache s) (hash_cache s) (S (clock s)) (trace s ++ [ev]).

(** A new transaction has no primitive calls yet. *)
Definition new_transaction (s : FileSystemCache) : FileSystemCache :=
  mkCache (stat_cache s) (listdir_cache s) (stat_error_cache s)
    (listdir_error_cache s) (pyversion s) (read_cache s)
    (read_error_cache s) (hash_cache s) (clock s) [].

(** ** Methods as computations *)

Definition M (A : Type) : Type :=
  FileSystemCache → FileSystemCache * result A.

Definition ret {A} (a : A) : M A := λ s, (s, Return a).
Definition raise {A} (e : PyExc) : M A := λ s, (s, Raise e).
Definition bind {A B} (c : M A) (k : A → M B) : M B :=
  λ s, match c s with
       | (s', Return a) => k a s'
       | (s', Raise e) => (s', Raise e)
       end.
Definition get : M FileSystemCache := λ s, (s, Return s).
Definition modify (f : FileSystemCache → FileSystemCache) : M unit :=
  λ s, (f s, Return tt).

Notation "x <- c ;; k" := (bind c (λ x, k))
  (at level 100, c at next level, right associativity).
Notation "c ;;; k" := (bind c (λ _, k))
  (at level 100, right associativity).

(** [try: x = c / except E as err: h(err) / (else) k(x)].  The handler
    runs in the state the body left behind; an exception the clause
    does not match propagates. *)
Definition try_except_else {A B} (c : M A) (catches : PyExc → bool)
    (h : PyExc → M B) (k : A → M B) : M B :=
  λ s, match c s with
       | (s', Return a) => k a s'
       | (s', Raise e) => if catches e then h e s' else (s', Raise e)
       end.

(** [try: c / except E as err: h(err)] with the value of [c] as result. *)
Definition try_except {A} (c : M A) (catches : PyExc → bool)
    (h : PyExc → M A) : M A :=
  try_except_else c catches h ret.

(** Calling a primitive: it answers for the current instant. *)
Definition primitive {A} (ev : event) (f : nat → result A) : M A :=
  λ s, (tick ev s, f (clock s)).

(** [functools.lru_cache(maxsize=None)(f)]: a hit returns the stored
    result; a miss calls [f] and stores what it returns, nothing when
    it raises. *)
Definition lru_cache {V}
    (cache : FileSystemCache → gmap string V)
    (set_cache : gmap string V → FileSystemCache → FileSystemCache)
    (f : string → M V) (key : string) : M V :=
  s <- get ;;
  match cache s !! key with
  | Some v => ret v
  | None =>
      v <- f key ;;
      modify (λ s', set_cache (<[key := v]> (cache s')) s') ;;;
      ret v
  end.

Section Methods.
Variable w : World.

  (** *** class FileSystemMetaCache *)

Definition _stat (path : string) : M stat_result :=
    s <- get ;;
    match stat_error_cache s !! path with
    | Some err => raise err
    | None =>
        try_except (primitive (EvStat path) (λ t, os_stat w t path))
          is_Exception
          (λ err,
             modify (λ s', set_stat_error_cache
                             (<[path := err]> (stat_error_cache s')) s') ;;;
             raise err)
    end.

Definition _listdir (path : string) : M (list string) :=
    s <- get ;;
    match listdir_error_cache s !! path with
    | Some err => raise err
    | None =>
        try_except (primitive (EvListdir path) (λ t, os_listdir w t path))
          is_Exception
          (λ err,
             modify (λ s', set_listdir_error_cache
                             (<[path := err]> (listdir_error_cache s')) s') ;;;
             raise err)
    end.

Definition stat : string → M stat_result :=
    lru_cache stat_cache set_stat_cache _stat.

Definition listdir : string → M (list string) :=
    lru_cache listdir_cache set_listdir_cache _listdir.

  (** [FileSystemMetaCache.flush] *)
Definition meta_flush : M unit :=
    modify (set_stat_cache ∅) ;;;
    modify (set_listdir_cache ∅) ;;;
    modify (set_stat_error_cache ∅) ;;;
    modify (set_listdir_error_cache ∅) ;;;
    modify new_transaction.

Definition isfile (path : string) : M bool :=
    try_except_else (stat path) is_OSError
      (λ _, ret false)
      (λ st, ret (S_ISREG (st_mode st))).

Definition isfile_case (path : string) : M bool :=
    let '(head, tail) := os_path_split w path in
    if bool_decide (tail = "") then ret false
    else
      try_except
        (names <- listdir head ;;
         if bool_decide (tail ∈ names) then isfile path else ret false)
        is_OSError
        (λ _, ret false).

Definition isdir (path : string) : M bool :=
    try_except_else (stat path) is_OSError
      (λ _, ret false)
      (λ st, ret (S_ISDIR (st_mode st))).

Definition exists_ (path : string) : M bool :=
    try_except_else (stat path) is_FileNotFoundError
      (λ _, ret false)
      (λ _, ret true).

  (** *** class FileSystemCache(FileSystemMetaCache) *)

  (** [FileSystemCache.flush] *)
Definition flush : M unit :=
    meta_flush ;;;
    modify (set_read_cache ∅) ;;;
    modify (set_read_error_cache ∅) ;;;
    modify (set_hash_cache ∅).

Definition read_with_python_encoding (path : string) : M string :=
    s <- get ;;
    match read_cache s !! path with
    | Some data => ret data
    | None =>
        match read_error_cache s !! path with
        | Some err => raise err
        | None =>
            stat path ;;;
            s1 <- get ;;
            try_except_else
              (primitive (EvDecode path)
                 (λ t, util_read_with_python_encoding w t path (pyversion s1)))
              is_Exception
              (λ err,
                 modify (λ s', set_read_error_cache
                                 (<[path := err]> (read_error_cache s')) s') ;;;
                 raise err)
              (λ '(data, md5hash),
                 modify (λ s', set_read_cache
                                 (<[path := data]> (read_cache s')) s') ;;;
                 modify (λ s', set_hash_cache
                                 (<[path := md5hash]> (hash_cache s')) s') ;;;
                 ret data)
        end
    end.

Definition md5 (path : string) : M string :=
    s <- get ;;
    (match hash_cache s !! path with
     | None => read_with_python_encoding path ;;; ret tt
     | Some _ => ret tt
     end) ;;;
    s' <- get ;;
    match hash_cache s' !! path with
    | Some h => ret h
    | None => raise (mkExc KeyError path)
    end.

End Methods.

(** [FileSystemCache.__init__(pyversion)]: the two [lru_cache]
    wrappers and the error dictionaries start empty, and the call of
    [self.flush()] creates the three content dictionaries. *)
Definition new_cache (pyversion : Z * Z) : FileSystemCache :=
  mkCache ∅ ∅ ∅ ∅ pyversion ∅ ∅ ∅ 0 [].

(** ** [posixpath.split] *)

(** [(p[:i], p[i:])] for [i = p.rfind('/') + 1]. *)
Fixpoint split_at_last_sep (p : string) : string * string :=
  match p with
  | EmptyString => (EmptyString, EmptyString)
  | String c rest =>
      let '(h, t) := split_at_last_sep rest in
      if bool_decide (h = EmptyString) then
        if bool_decide (c = "/"%char) then (String c EmptyString, rest)
        else (EmptyString, String c rest)
      else (String c h, t)
  end.

(** [s.rstrip('/')] *)
Fixpoint rstrip_sep (s : string) : string :=
  match s with
  | EmptyString => EmptyString
  | String c rest =>
      let rest' := rstrip_sep rest in
      if bool_decide (c = "/"%char) && bool_decide (rest' = EmptyString)
      then EmptyString
      else String c rest'
  end.

(** [os.path.split] on a POSIX platform: the head loses its trailing
    slashes unless it consists of slashes only. *)
Definition posix_split (p : string) : string * string :=
  let '(head, tail) := split_at_last_sep p in
  if bool_decide (head = EmptyString) then (head, tail)
  else if bool_decide (rstrip_sep head = EmptyString) then (head, tail)
  else (rstrip_sep head, tail).

(** ** Clients: sequences of method calls *)

Inductive op : Type :=
  | Stat (path : string)
  | Listdir (path : string)
  | Isfile (path : string)
  | IsfileCase (path : string)
  | Isdir (path : string)
  | Exists (path : string)
  | ReadText (path : string)
  | Md5 (path : string)
  | Flush.

Inductive value : Type :=
  | VStat (st : stat_result)
  | VNames (names : list string)
  | VBool (b : bool)
  | VStr (s : string)
  | VNone.

Definition fmap_M {A B} (f : A → B) (c : M A) : M B :=
  x <- c ;; ret (f x).

Definition exec (w : World) (o : op) : M value :=
  match o with
  | Stat p => fmap_M VStat (stat w p)
  | Listdir p => fmap_M VNames (listdir w p)
  | Isfile p => fmap_M VBool (isfile w p)
  | IsfileCase p => fmap_M VBool (isfile_case w p)
  | Isdir p => fmap_M VBool (isdir w p)
  | Exists p => fmap_M VBool (exists_ w p)
  | ReadText p => fmap_M VStr (read_with_python_encoding w p)
  | Md5 p => fmap_M VStr (md5 w p)
  | Flush => fmap_M (λ _, VNone) flush
  end.

Definition is_flush (o : op) : bool :=
  match o with Flush => true | _ => false end.

(** The cache after a client has made the calls [ops] in order. *)
Definition run_ops (w : World) (ops : list op)
    (s : FileSystemCache) : FileSystemCache :=
  fold_left (λ s' o, (exec w o s').1) ops s.

(** The states a client can bring a cache to. *)
Inductive reachable (w : World) : FileSystemCache → Prop :=
  | reachable_new pv : reachable w (new_cache pv)
  | reachable_exec s o : reachable w s → reachable w (exec w o s).1.

(** ** Atomic cache transitions

    Every method either answers from the dictionaries and leaves the
    object alone, or asks a primitive once and records the answer. *)
Inductive atom (w : World) (s : FileSystemCache) : FileSystemCache → Prop :=
  | atom_stat_ok p r :
      stat_cache s !! p = None →
      stat_error_cache s !! p = None →
      os_stat w (clock s) p = Return r →
      atom w s (set_stat_cache (<[p := r]> (stat_cache s))
                  (tick (EvStat p) s))
  | atom_stat_err p e :
      stat_cache s !! p = None →
      stat_error_cache s !! p = None →
      os_stat w (clock s) p = Raise e →
      atom w s (set_stat_error_cache (<[p := e]> (stat_error_cache s))
                  (tick (EvStat p) s))
  | atom_listdir_ok p l :
      listdir_cache s !! p = None →
      listdir_error_cache s !! p = None →
      os_listdir w (clock s) p = Return l →
      atom w s (set_listdir_cache (<[p := l]> (listdir_cache s))
                  (tick (EvListdir p) s))
  | atom_listdir_err p e :
      listdir_cache s !! p = None →
      listdir_error_cache s !! p = None →
      os_listdir w (clock s) p = Raise e →
      atom w s (set_listdir_error_cache (<[p := e]> (listdir_error_cache s))
                  (tick (EvListdir p) s))
  | atom_decode_ok p data md5hash :
      read_cache s !! p = None →
      read_error_cache s !! p = None →
      is_Some (stat_cache s !! p) →
      util_read_with_python_encoding w (clock s) p (pyversion s)
        = Return (data, md5hash) →
      atom w s (set_hash_cache (<[p := md5hash]> (hash_cache s))
                  (set_read_cache (<[p := data]> (read_cache s))
                     (tick (EvDecode p) s)))
  | atom_decode_err p e :
      read_cache s !! p = None →
      read_error_cache s !! p = None →
      is_Some (stat_cache s !! p) →
      util_read_with_python_encoding w (clock s) p (pyversion s) = Raise e →
      atom w s (set_read_error_cache (<[p := e]> (read_error_cache s))
                  (tick (EvDecode p) s)).

(** The cache right after [flush]. *)
Definition flushed (s : FileSystemCache) : FileSystemCache :=
  mkCache ∅ ∅ ∅ ∅ (pyversion s) ∅ ∅ ∅ (clock s) [].

(** ** Answers that are settled for the rest of the transaction *)

(** [stat(p)] is settled to [r]: the dictionaries alone produce [r]. *)
Definition stat_settled (p : string) (r : result stat_result)
    (s : FileSystemCache) : Prop :=
  match r with
  | Return v => stat_cache s !! p = Some v
  | Raise e => stat_cache s !! p = None ∧ stat_error_cache s !! p = Some e
  end.

Definition listdir_settled (p : string) (r : result (list string))
    (s : FileSystemCache) : Prop :=
  match r with
  | Return v => listdir_cache s !! p = Some v
  | Raise e =>
      listdir_cache s !! p = None ∧ listdir_error_cache s !! p = Some e
  end.

(** A read raises again either its own stored error or, when the
    [stat] it starts with failed, the stored [stat] error. *)
Definition read_settled (p : string) (r : result string)
    (s : FileSystemCache) : Prop :=
  match r with
  | Return data => read_cache s !! p = Some data
  | Raise e =>
      read_cache s !! p = None ∧
      (read_error_cache s !! p = Some e ∨
       (read_error_cache s !! p = None ∧ stat_settled p (Raise e) s))
  end.

(** A digest is settled once its text is stored with it; a failure of
    [md5] is the failure of the read it makes. *)
Definition md5_settled (p : string) (r : result string)
    (s : FileSystemCache) : Prop :=
  match r with
  | Return h => hash_cache s !! p = Some h ∧ is_Some (read_cache s !! p)
  | Raise e => hash_cache s !! p = None ∧ read_settled p (Raise e) s
  end.

(** ** The invariants of the dictionaries *)

(** For every path at most one of a stored result and a stored error,
    for each of [stat], [listdir] and the content read. *)
Definition exclusive (s : FileSystemCache) : Prop :=
  dom (stat_cache s) ## dom (stat_error_cache s) ∧
  dom (listdir_cache s) ## dom (listdir_error_cache s) ∧
  dom (read_cache s) ## dom (read_error_cache s).

(** The texts and the digests are stored for the same paths. *)
Definition coupled (s : FileSystemCache) : Prop :=
  dom (read_cache s) = dom (hash_cache s).

(** ** The invariants that tie the dictionaries to the primitive calls *)

(** A path with a stored text or a stored read error has a stored
    [stat] result. *)
Definition stat_first (s : FileSystemCache) : Prop :=
  dom (read_cache s) ∪ dom (read_error_cache s) ⊆ dom (stat_cache s).

(** The primitive calls of the transaction are those whose answer is
    stored. *)
Definition logged (s : FileSystemCache) : Prop :=
  ∀ p,
    (EvStat p ∈ trace s ↔
       p ∈ dom (stat_cache s) ∪ dom (stat_error_cache s)) ∧
    (EvListdir p ∈ trace s ↔
       p ∈ dom (listdir_cache s) ∪ dom (listdir_error_cache s)) ∧
    (EvDecode p ∈ trace s ↔
       p ∈ dom (read_cache s) ∪ dom (read_error_cache s)).

(** Every call of the decoder comes after a call of [os.stat] for the
    same path. *)
Definition ordered (s : FileSystemCache) : Prop :=
  ∀ i p, trace s !! i = Some (EvDecode p) →
    ∃ j, (j < i)%nat ∧ trace s !! j = Some (EvStat p).

(** What is stored is what a primitive answered at some instant; a
    text is stored with the digest the decoder returned with it. *)
Definition provenance (w : World) (s : FileSystemCache) : Prop :=
  (∀ p r, stat_cache s !! p = Some r → ∃ t, os_stat w t p = Return r) ∧
  (∀ p e, stat_error_cache s !! p = Some e → ∃ t, os_stat w t p = Raise e) ∧
  (∀ p l, listdir_cache s !! p = Some l →
     ∃ t, os_listdir w t p = Return l) ∧
  (∀ p e, listdir_error_cache s !! p = Some e →
     ∃ t, os_listdir w t p = Raise e) ∧
  (∀ p data, read_cache s !! p = Some data →
     ∃ t h, hash_cache s !! p = Some h ∧
       util_read_with_python_encoding w t p (pyversion s)
         = Return (data, h)) ∧
  (∀ p e, read_error_cache s !! p = Some e →
     ∃ t, util_read_with_python_encoding w t p (pyversion s) = Raise e).

Record well_formed (w : World) (s : FileSystemCache) : Prop := {
  wf_exclusive : exclusive s;
  wf_coupled : coupled s;
  wf_stat_first : stat_first s;
  wf_logged : logged s;
  wf_once : NoDup (trace s);
  wf_ordered : ordered s;
  wf_provenance : provenance w s
}.

(** ** Clients within one transaction *)

Definition no_flush (ops : list op) : bool :=
  forallb (λ o, negb (is_flush o)) ops.

Definition memoized (o : op) : bool :=
  match o with
  | Stat _ | Listdir _ | ReadText _ | Md5 _ => true
  | _ => false
  end.


(** The primitives of the world fail with [OSError]s only. *)
Definition os_errors_only (w : World) : Prop :=
  (∀ t q e, os_stat w t q = Raise e → is_OSError e = true) ∧
  (∀ t q e, os_listdir w t q = Raise e → is_OSError e = true).

(** ** Worlds used as concrete instances *)

(** The mode of a regular file, [0o100644]. *)
Definition regular_file : stat_result := mkStat 33188 120 1500000000.
(** The mode of a directory, [0o040755]. *)
Definition directory : stat_result := mkStat 16877 4096 1500000000.

Definition ENOENT (p : string) : PyExc := mkExc FileNotFoundError p.
Definition EACCES (p : string) : PyExc := mkExc PermissionError p.

(** A file system that folds case and changes under the cache: at the
    first instant [dir] holds the single entry [Foo.py]; from the
    third primitive call on, the file is gone. *)
Definition changing_world : World :=
  mkWorld posix_split
    (λ t p,
       if bool_decide (p = "dir") then Return directory
       else if bool_decide (p = "dir/Foo.py" ∨ p = "dir/foo.py") then
         if bool_decide (t < 3)%nat then Return regular_file
         else Raise (ENOENT p)
       else if bool_decide (p = "secret") then Raise (EACCES p)
       else Raise (ENOENT p))
    (λ t p,
       if bool_decide (p = "dir") then
         if bool_decide (t < 3)%nat then Return ["Foo.py"] else Return []
       else if bool_decide (p = "secret") then Raise (EACCES p)
       else Raise (ENOENT p))
    (λ t p pv,
       if bool_decide (p = "dir/Foo.py") then
         if bool_decide (t < 3)%nat then Return ("x = 1", "a1b2")
         else Raise (ENOENT p)
       else Raise (ENOENT p)).

(** A file system on which [dir] always holds the single entry
    [Foo.py], a regular file, and which folds case. *)
Definition foo_world : World :=
  mkWorld posix_split
    (λ t p,
       if bool_decide (p = "dir/Foo.py" ∨ p = "dir/foo.py")
       then Return regular_file
       else if bool_decide (p = "dir") then Return directory
       else Raise (ENOENT p))
    (λ t p,
       if bool_decide (p = "dir") then Return ["Foo.py"]
       else Raise (ENOENT p))
    (λ t p pv, Raise (ENOENT p)).

(** Whether a path has an embedded null character. *)
Fixpoint has_null (p : string) : bool :=
  match p with
  | EmptyString => false
  | String c rest => bool_decide (c = "000"%char) || has_null rest
  end.

Definition null_path : string := String "a" (String "000" (String "b" "")).
Definition null_dir_file : string :=
  String "a" (String "000" (String "b" "/c")).

(** [os.stat] and [os.listdir] raise [ValueError] on a path with an
    embedded null character, before they ask the operating system. *)
Definition null_world : World :=
  mkWorld posix_split
    (λ t p, if has_null p then Raise (mkExc ValueError "embedded null byte")
            else Raise (ENOENT p))
    (λ t p, if has_null p then Raise (mkExc ValueError "embedded null byte")
            else Raise (ENOENT p))
    (λ t p pv, Raise (ENOENT p)).

(** ** Derived queries, footprints and instants *)

Definition derived (o : op) : bool :=
  match o with
  | Isfile _ | IsfileCase _ | Isdir _ | Exists _ => true
  | _ => false
  end.

(** What [isfile], [isdir] and [exists] make of an outcome of [stat]. *)
Definition isfile_of (r : result stat_result) : result bool :=
  match r with
  | Return st => Return (S_ISREG (st_mode st))
  | Raise e => if is_OSError e then Return false else Raise e
  end.

Definition isdir_of (r : result stat_result) : result bool :=
  match r with
  | Return st => Return (S_ISDIR (st_mode st))
  | Raise e => if is_OSError e then Return false else Raise e
  end.

Definition exists_of (r : result stat_result) : result bool :=
  match r with
  | Return _ => Return true
  | Raise e => if is_FileNotFoundError e then Return false else Raise e
  end.

(** The most primitive calls a method can make. *)
Definition max_calls (o : op) : nat :=
  match o with
  | Stat _ | Listdir _ | Isfile _ | Isdir _ | Exists _ => 1
  | IsfileCase _ | ReadText _ | Md5 _ => 2
  | Flush => 0
  end.

(** The paths a method may store something for. *)
Definition touched (w : World) (o : op) : gset string :=
  match o with
  | Stat p | Listdir p | Isfile p | Isdir p | Exists p
  | ReadText p | Md5 p => {[p]}
  | IsfileCase p => {[p; (os_path_split w p).1]}
  | Flush => ∅
  end.

(** The seven dictionaries agree at the key [q]. *)
Definition same_at (q : string) (s s' : FileSystemCache) : Prop :=
  stat_cache s' !! q = stat_cache s !! q ∧
  stat_error_cache s' !! q = stat_error_cache s !! q ∧
  listdir_cache s' !! q = listdir_cache s !! q ∧
  listdir_error_cache s' !! q = listdir_error_cache s !! q ∧
  read_cache s' !! q = read_cache s !! q ∧
  read_error_cache s' !! q = read_error_cache s !! q ∧
  hash_cache s' !! q = hash_cache s !! q.

(** Every entry of [s] is an entry of [s']. *)
Definition grows (s s' : FileSystemCache) : Prop :=
  stat_cache s ⊆ stat_cache s' ∧
  stat_error_cache s ⊆ stat_error_cache s' ∧
  listdir_cache s ⊆ listdir_cache s' ∧
  listdir_error_cache s ⊆ listdir_error_cache s' ∧
  read_cache s ⊆ read_cache s' ∧
  read_error_cache s ⊆ read_error_cache s' ∧
  hash_cache s ⊆ hash_cache s'.

(** Every stored [stat] result was observed at a past instant, and
    every stored text was decoded at a later past instant than the
    stored [stat] result of its path was observed. *)
Definition timed (w : World) (s : FileSystemCache) : Prop :=
  (∀ p st, stat_cache s !! p = Some st →
     ∃ t, (t < clock s)%nat ∧ os_stat w t p = Return st) ∧
  (∀ p data, read_cache s !! p = Some data →
     ∃ st h t1 t2,
       stat_cache s !! p = Some st ∧
       hash_cache s !! p = Some h ∧
       (t1 < t2)%nat ∧ (t2 < clock s)%nat ∧
       os_stat w t1 p = Return st ∧
       util_read_with_python_encoding w t2 p (pyversion s)
         = Return (data, h)).

(** ** Proof tactics *)

Ltac split_key p q :=
  destruct (decide (p = q)) as [->|];
  [rewrite ?lookup_insert_eq|rewrite ?lookup_insert_ne by done].

Ltac none_to_dom :=
  repeat match goal with
         | H : _ !! _ = None |- _ => apply not_elem_of_dom in H
         | H : is_Some (_ !! _) |- _ => apply elem_of_dom in H
         end.

(** ** Unfolding the methods *)

Lemma stat_unfold w p s :
  stat w p s =
  match stat_cache s !! p with
  | Some r => (s, Return r)
  | None =>
      match stat_error_cache s !! p with
      | Some e => (s, Raise e)
      | None =>
          match os_stat w (clock s) p with
          | Return r =>
              (set_stat_cache (<[p := r]> (stat_cache s)) (tick (EvStat p) s),
               Return r)
          | Raise e =>
              (set_stat_error_cache (<[p := e]> (stat_error_cache s))
                 (tick (EvStat p) s), Raise e)
          end
      end
  end.
Proof.
  unfold stat, lru_cache, _stat, bind, get, try_except, try_except_else,
    primitive, modify, ret, raise, is_Exception.
  repeat case_match; simplify_eq/=; try done.
Qed.

Lemma listdir_unfold w p s :
  listdir w p s =
  match listdir_cache s !! p with
  | Some l => (s, Return l)
  | None =>
      match listdir_error_cache s !! p with
      | Some e => (s, Raise e)
      | None =>
          match os_listdir w (clock s) p with
          | Return l =>
              (set_listdir_cache (<[p := l]> (listdir_cache s))
                 (tick (EvListdir p) s), Return l)
          | Raise e =>
              (set_listdir_error_cache (<[p := e]> (listdir_error_cache s))
                 (tick (EvListdir p) s), Raise e)
          end
      end
  end.
Proof.
  unfold listdir, lru_cache, _listdir, bind, get, try_except,
    try_except_else, primitive, modify, ret, raise, is_Exception.
  repeat case_match; simplify_eq/=; try done.
Qed.

Lemma read_unfold w p s :
  read_with_python_encoding w p s =
  match read_cache s !! p with
  | Some data => (s, Return data)
  | None =>
      match read_error_cache s !! p with
      | Some e => (s, Raise e)
      | None =>
          match stat w p s with
          | (s1, Raise e) => (s1, Raise e)
          | (s1, Return _) =>
              match util_read_with_python_encoding w (clock s1) p
                      (pyversion s1) with
              | Return (data, md5hash) =>
                  (set_hash_cache (<[p := md5hash]> (hash_cache s1))
                     (set_read_cache (<[p := data]> (read_cache s1))
                        (tick (EvDecode p) s1)), Return data)
              | Raise e =>
                  (set_read_error_cache (<[p := e]> (read_error_cache s1))
                     (tick (EvDecode p) s1), Raise e)
              end
          end
      end
  end.
Proof.
  unfold read_with_python_encoding, bind, get, try_except_else,
    primitive, modify, ret, raise, is_Exception.
  repeat case_match; simplify_eq/=; try done.
Qed.

Lemma md5_unfold w p s :
  md5 w p s =
  match hash_cache s !! p with
  | Some h => (s, Return h)
  | None =>
      match read_with_python_encoding w p s with
      | (s1, Raise e) => (s1, Raise e)
      | (s1, Return _) =>
          match hash_cache s1 !! p with
          | Some h => (s1, Return h)
          | None => (s1, Raise (mkExc KeyError p))
          end
      end
  end.
Proof.
  unfold md5, bind, get, ret, raise.
  repeat case_match; simplify_eq/=; try done.
Qed.

Example posix_split_examples :
  posix_split "dir/Foo.py" = ("dir", "Foo.py") ∧
  posix_split "/Foo.py" = ("/", "Foo.py") ∧
  posix_split "Foo.py" = ("", "Foo.py") ∧
  posix_split "a/b//" = ("a/b", "") ∧
  posix_split "a//b" = ("a", "b") ∧
  posix_split "///x" = ("///", "x") ∧
  posix_split "" = ("", "").
Proof. split_and!; reflexivity. Qed.

Example S_ISREG_examples :
  S_ISREG (st_mode regular_file) = true ∧
  S_ISDIR (st_mode regular_file) = false ∧
  S_ISREG (st_mode directory) = false ∧
  S_ISDIR (st_mode directory) = true.
Proof. split_and!; reflexivity. Qed.

Lemma isfile_unfold w p s :
  isfile w p s =
  match stat w p s with
  | (s1, Return st) => (s1, Return (S_ISREG (st_mode st)))
  | (s1, Raise e) => if is_OSError e then (s1, Return false) else (s1, Raise e)
  end.
Proof. reflexivity. Qed.

Lemma isdir_unfold w p s :
  isdir w p s =
  match stat w p s with
  | (s1, Return st) => (s1, Return (S_ISDIR (st_mode st)))
  | (s1, Raise e) => if is_OSError e then (s1, Return false) else (s1, Raise e)
  end.
Proof. reflexivity. Qed.

Lemma exists_unfold w p s :
  exists_ w p s =
  match stat w p s with
  | (s1, Return _) => (s1, Return true)
  | (s1, Raise e) =>
      if is_FileNotFoundError e then (s1, Return false) else (s1, Raise e)
  end.
Proof. reflexivity. Qed.

Lemma isfile_case_unfold w p s :
  isfile_case w p s =
  if bool_decide ((os_path_split w p).2 = "") then (s, Return false)
  else
    match listdir w (os_path_split w p).1 s with
    | (s1, Return names) =>
        if bool_decide ((os_path_split w p).2 ∈ names) then
          match isfile w p s1 with
          | (s2, Return b) => (s2, Return b)
          | (s2, Raise e) =>
              if is_OSError e then (s2, Return false) else (s2, Raise e)
          end
        else (s1, Return false)
    | (s1, Raise e) =>
        if is_OSError e then (s1, Return false) else (s1, Raise e)
    end.
Proof.
  unfold isfile_case, try_except, try_except_else, bind, ret.
  destruct (os_path_split w p) as [head tail]; simpl.
  repeat case_match; simplify_eq/=; try done; congruence.
Qed.

Lemma flush_unfold s : flush s = (flushed s, Return tt).
Proof. reflexivity. Qed.

Lemma new_cache_flush pv :
  (flush (new_cache pv)).1 = new_cache pv.
Proof. reflexivity. Qed.

(** ** Every method is a sequence of atomic transitions *)

Lemma stat_atoms w p s : rtc (atom w) s (stat w p s).1.
Proof.
  rewrite stat_unfold.
  repeat case_match; simpl; try reflexivity; apply rtc_once; by constructor.
Qed.

Lemma listdir_atoms w p s : rtc (atom w) s (listdir w p s).1.
Proof.
  rewrite listdir_unfold.
  repeat case_match; simpl; try reflexivity; apply rtc_once; by constructor.
Qed.

(** A successful [stat] leaves its result in the [lru_cache]. *)
Lemma stat_Return_cached w p s s1 r :
  stat w p s = (s1, Return r) → stat_cache s1 !! p = Some r.
Proof.
  rewrite stat_unfold.
  repeat case_match; intros; simplify_eq/=; try done.
  by rewrite lookup_insert_eq.
Qed.

Lemma read_atoms w p s :
  rtc (atom w) s (read_with_python_encoding w p s).1.
Proof.
  rewrite read_unfold.
  destruct (read_cache s !! p) eqn:Hr; [reflexivity|].
  destruct (read_error_cache s !! p) eqn:He; [reflexivity|].
  pose proof (stat_atoms w p s) as Hs.
  destruct (stat w p s) as [s1 [r|e]] eqn:Hst; simpl in *; [|done].
  assert (read_cache s1 !! p = None ∧ read_error_cache s1 !! p = None)
    as [Hr1 He1].
  { revert Hst. rewrite stat_unfold.
    repeat case_match; intros; by simplify_eq/=. }
  apply stat_Return_cached in Hst.
  etrans; [exact Hs|].
  repeat case_match; simpl; apply rtc_once; by constructor.
Qed.

Lemma md5_atoms w p s : rtc (atom w) s (md5 w p s).1.
Proof.
  rewrite md5_unfold.
  pose proof (read_atoms w p s).
  repeat case_match; simplify_eq/=; done.
Qed.

Lemma isfile_atoms w p s : rtc (atom w) s (isfile w p s).1.
Proof.
  rewrite isfile_unfold. pose proof (stat_atoms w p s).
  repeat case_match; simplify_eq/=; done.
Qed.

Lemma isdir_atoms w p s : rtc (atom w) s (isdir w p s).1.
Proof.
  rewrite isdir_unfold. pose proof (stat_atoms w p s).
  repeat case_match; simplify_eq/=; done.
Qed.

Lemma exists_atoms w p s : rtc (atom w) s (exists_ w p s).1.
Proof.
  rewrite exists_unfold. pose proof (stat_atoms w p s).
  repeat case_match; simplify_eq/=; done.
Qed.

Lemma isfile_case_atoms w p s : rtc (atom w) s (isfile_case w p s).1.
Proof.
  rewrite isfile_case_unfold.
  case_bool_decide; [reflexivity|].
  pose proof (listdir_atoms w (os_path_split w p).1 s) as Hl.
  destruct (listdir w (os_path_split w p).1 s) as [s1 [names|e]]; simpl in *.
  - case_bool_decide; [|done].
    pose proof (isfile_atoms w p s1) as Hf.
    destruct (isfile w p s1) as [s2 [b|e]]; simpl in *.
    + by etrans.
    + destruct (is_OSError e); by etrans.
  - by destruct (is_OSError e).
Qed.

Lemma fmap_M_state {A B} (f : A → B) (c : M A) s :
  (fmap_M f c s).1 = (c s).1.
Proof. unfold fmap_M, bind, ret. by destruct (c s) as [? []]. Qed.

Lemma fmap_M_result {A B} (f : A → B) (c : M A) s :
  (fmap_M f c s).2 =
  match (c s).2 with Return a => Return (f a) | Raise e => Raise e end.
Proof. unfold fmap_M, bind, ret. by destruct (c s) as [? []]. Qed.

Lemma exec_atoms w o s :
  is_flush o = false → rtc (atom w) s (exec w o s).1.
Proof.
  destruct o; simpl; intros ?; try done; rewrite fmap_M_state;
    auto using stat_atoms, listdir_atoms, isfile_atoms, isfile_case_atoms,
      isdir_atoms, exists_atoms, read_atoms, md5_atoms.
Qed.

Lemma exec_flush w s : (exec w Flush s).1 = flushed s.
Proof. reflexivity. Qed.

Lemma run_ops_atoms w ops s :
  forallb (λ o, negb (is_flush o)) ops = true →
  rtc (atom w) s (run_ops w ops s).
Proof.
  revert s. induction ops as [|o ops IH]; intros s Hnf; simpl in *.
  - reflexivity.
  - apply andb_prop in Hnf as [Ho Hops].
    apply negb_true_iff in Ho.
    etrans; [by apply exec_atoms|].
    by apply IH.
Qed.

(** ** Every atomic transition keeps the invariants *)

Lemma exclusive_atom w s s' : atom w s s' → exclusive s → exclusive s'.
Proof.
  intros Hatom (H1 & H2 & H3).
  destruct Hatom as [q|q|q|q|q ? ? Hr He|q ? Hr He]; unfold exclusive; simpl;
    rewrite ?dom_insert_L; repeat split; try done;
    repeat match goal with
           | H : _ !! _ = None |- _ => apply not_elem_of_dom in H
           end; set_solver.
Qed.

Lemma exclusive_flushed s : exclusive (flushed s).
Proof. unfold exclusive; simpl. rewrite !dom_empty_L. set_solver. Qed.

Lemma coupled_atom w s s' : atom w s s' → coupled s → coupled s'.
Proof.
  unfold coupled. destruct 1; simpl; try done.
  rewrite !dom_insert_L. by intros ->.
Qed.

Lemma coupled_flushed s : coupled (flushed s).
Proof. unfold coupled; simpl. by rewrite !dom_empty_L. Qed.

Lemma coupled_rtc w s s' : rtc (atom w) s s' → coupled s → coupled s'.
Proof. induction 1; eauto using coupled_atom. Qed.

Lemma exclusive_rtc w s s' : rtc (atom w) s s' → exclusive s → exclusive s'.
Proof. induction 1; eauto using exclusive_atom. Qed.

Lemma coupled_lookup s p :
  coupled s → is_Some (read_cache s !! p) ↔ is_Some (hash_cache s !! p).
Proof. unfold coupled. intros Hc. by rewrite <- !elem_of_dom, Hc. Qed.

(** ** A settled answer is replayed and stays settled *)

Section Settled.
Variable w : World.

Lemma stat_settles p s : stat_settled p (stat w p s).2 (stat w p s).1.
  Proof.
    rewrite stat_unfold.
    repeat case_match; simplify_eq/=; rewrite ?lookup_insert_eq; done.
  Qed.

Lemma stat_settled_atom p r s s' :
    atom w s s' → stat_settled p r s → stat_settled p r s'.
  Proof.
    destruct 1 as [q|q|q|q|q|q]; destruct r; simpl; try done;
      split_key q p; naive_solver.
  Qed.

Lemma stat_settled_replay p r s :
    stat_settled p r s → stat w p s = (s, r).
  Proof.
    rewrite stat_unfold. destruct r; simpl.
    - by intros ->.
    - by intros [-> ->].
  Qed.

Lemma listdir_settles p s :
    listdir_settled p (listdir w p s).2 (listdir w p s).1.
  Proof.
    rewrite listdir_unfold.
    repeat case_match; simplify_eq/=; rewrite ?lookup_insert_eq; done.
  Qed.

Lemma listdir_settled_atom p r s s' :
    atom w s s' → listdir_settled p r s → listdir_settled p r s'.
  Proof.
    destruct 1 as [q|q|q|q|q|q]; destruct r; simpl; try done;
      split_key q p; naive_solver.
  Qed.

Lemma listdir_settled_replay p r s :
    listdir_settled p r s → listdir w p s = (s, r).
  Proof.
    rewrite listdir_unfold. destruct r; simpl.
    - by intros ->.
    - by intros [-> ->].
  Qed.

  (** [stat] touches none of the content dictionaries. *)
Lemma stat_content p s :
    read_cache (stat w p s).1 = read_cache s ∧
    read_error_cache (stat w p s).1 = read_error_cache s ∧
    hash_cache (stat w p s).1 = hash_cache s ∧
    pyversion (stat w p s).1 = pyversion s.
  Proof. rewrite stat_unfold. repeat case_match; simplify_eq/=; done. Qed.

Lemma read_settles p s :
    read_settled p (read_with_python_encoding w p s).2
      (read_with_python_encoding w p s).1.
  Proof.
    rewrite read_unfold.
    destruct (read_cache s !! p) eqn:Hr; [done|].
    destruct (read_error_cache s !! p) eqn:He; [simpl; auto|].
    pose proof (stat_settles p s) as Hs.
    destruct (stat_content p s) as (Hc1 & Hc2 & _).
    destruct (stat w p s) as [s1 [r|e]]; simpl in *.
    - repeat case_match; simplify_eq/=; rewrite ?lookup_insert_eq; try done.
      split; [congruence|]. by left.
    - split; [congruence|]. right. split; [congruence|done].
  Qed.

Lemma read_settled_atom p r s s' :
    atom w s s' → read_settled p r s → read_settled p r s'.
  Proof.
    destruct 1 as [q|q|q|q|q ? ? ? ? [? ?]|q ? ? ? [? ?]];
      destruct r; simpl; try done; split_key q p; naive_solver.
  Qed.

Lemma read_settled_replay p r s :
    read_settled p r s → read_with_python_encoding w p s = (s, r).
  Proof.
    rewrite read_unfold. destruct r; simpl.
    - by intros ->.
    - intros [-> [->|[-> Hs]]]; [done|].
      by rewrite (stat_settled_replay p (Raise e) s).
  Qed.

Lemma md5_settles p s :
    coupled s → md5_settled p (md5 w p s).2 (md5 w p s).1.
  Proof.
    intros Hc. rewrite md5_unfold.
    destruct (hash_cache s !! p) eqn:Hh.
    { simpl. split; [done|]. apply coupled_lookup; [done|]. by rewrite Hh. }
    pose proof (read_settles p s) as Hs.
    pose proof (coupled_rtc _ _ _ (read_atoms w p s) Hc) as Hc1.
    destruct (read_with_python_encoding w p s) as [s1 [d|e]] eqn:Hrd;
      simpl in *.
    - assert (is_Some (hash_cache s1 !! p)) as [h Hh1].
      { apply coupled_lookup; [done|]. by rewrite Hs. }
      rewrite Hh1. simpl. by rewrite Hs.
    - split; [|done].
      revert Hrd. rewrite read_unfold.
      destruct (stat_content p s) as (_ & _ & Hst & _).
      repeat case_match; intros; simplify_eq/=; congruence.
  Qed.

Lemma md5_settled_atom p r s s' :
    atom w s s' → md5_settled p r s → md5_settled p r s'.
  Proof.
    intros Hatom. destruct r as [h|e]; simpl.
    - intros [Hh [d Hd]].
      destruct Hatom as [q|q|q|q|q|q]; simpl; eauto.
      split_key q p; [congruence|eauto].
    - intros [Hh Hrd].
      split; [|by apply (read_settled_atom p (Raise e) s)].
      destruct Hrd as [Hr Hrd].
      destruct Hatom as [q|q|q|q|q ? ? ? ? [? ?]|q]; simpl; try done.
      split_key q p; [|done]. naive_solver.
  Qed.

Lemma md5_settled_replay p r s :
    md5_settled p r s → md5 w p s = (s, r).
  Proof.
    rewrite md5_unfold. destruct r; simpl.
    - by intros [-> _].
    - intros [-> Hs].
      by rewrite (read_settled_replay p (Raise e) s).
  Qed.

End Settled.

Lemma stat_first_atom w s s' : atom w s s' → stat_first s → stat_first s'.
Proof.
  unfold stat_first.
  destruct 1; simpl; rewrite ?dom_insert_L; none_to_dom; set_solver.
Qed.

Lemma logged_atom w s s' : atom w s s' → logged s → logged s'.
Proof.
  unfold logged. intros Hatom Hl p. specialize (Hl p).
  destruct Hatom; simpl; rewrite ?dom_insert_L; set_solver.
Qed.

Lemma once_atom w s s' :
  atom w s s' → logged s → NoDup (trace s) → NoDup (trace s').
Proof.
  intros Hatom Hl Hnd.
  assert (∀ ev, trace s' = (trace s ++ [ev])%list → ev ∉ trace s → NoDup (trace s'))
    as Hsnoc.
  { intros ev -> Hev. apply NoDup_app. split_and!; [done| |apply NoDup_singleton].
    intros x Hx ->%list_elem_of_singleton. done. }
  destruct Hatom as [p|p|p|p|p|p]; (eapply Hsnoc; [reflexivity|]);
    specialize (Hl p); none_to_dom; set_solver.
Qed.

Lemma ordered_atom w s s' :
  atom w s s' → logged s → ordered s → ordered s'.
Proof.
  intros Hatom Hl Ho.
  assert (∀ ev, trace s' = (trace s ++ [ev])%list →
            (∀ p, ev = EvDecode p → EvStat p ∈ trace s) → ordered s')
    as Hsnoc.
  { intros ev Htr Hev i p. rewrite Htr.
    intros [[Hi Hlk]|[-> ->]]%lookup_snoc_Some.
    - destruct (Ho i p Hlk) as (j & Hj & Hjlk).
      exists j. split; [done|]. apply lookup_app_l_Some. done.
    - pose proof (Hev p eq_refl) as Hin.
      apply list_elem_of_lookup in Hin as [j Hj].
      exists j. split; [by eapply lookup_lt_Some|].
      by apply lookup_app_l_Some. }
  destruct Hatom as [q|q|q|q|q|q]; (eapply Hsnoc; [reflexivity|]);
    intros p ?; simplify_eq;
    specialize (Hl p); none_to_dom; set_solver.
Qed.

Lemma provenance_atom w s s' :
  atom w s s' → provenance w s → provenance w s'.
Proof.
  intros Hatom (H1 & H2 & H3 & H4 & H5 & H6).
  destruct Hatom as [q|q|q|q|q|q]; unfold provenance; simpl;
    split_and!; try done; intros p x; split_key q p; eauto;
    intros; simplify_eq; eauto.
Qed.

Lemma well_formed_atom w s s' :
  atom w s s' → well_formed w s → well_formed w s'.
Proof.
  intros Hatom [].
  split; eauto using exclusive_atom, coupled_atom, stat_first_atom,
    logged_atom, once_atom, ordered_atom, provenance_atom.
Qed.

Lemma well_formed_rtc w s s' :
  rtc (atom w) s s' → well_formed w s → well_formed w s'.
Proof. induction 1; eauto using well_formed_atom. Qed.

Lemma well_formed_flushed w s : well_formed w (flushed s).
Proof.
  split.
  - apply exclusive_flushed.
  - apply coupled_flushed.
  - unfold stat_first; simpl. rewrite !dom_empty_L. set_solver.
  - intros p; simpl. rewrite !dom_empty_L. set_solver.
  - simpl. apply NoDup_nil_2.
  - intros i p; simpl. by rewrite lookup_nil.
  - unfold provenance; simpl. split_and!; intros ? ?; by rewrite lookup_empty.
Qed.

Lemma well_formed_new w pv : well_formed w (new_cache pv).
Proof. apply (well_formed_flushed w (new_cache pv)). Qed.

Lemma well_formed_exec w o s :
  well_formed w s → well_formed w (exec w o s).1.
Proof.
  intros Hwf. destruct (is_flush o) eqn:Hf.
  - destruct o; try done. apply well_formed_flushed.
  - eapply well_formed_rtc; [by apply exec_atoms|done].
Qed.

Lemma reachable_well_formed w s : reachable w s → well_formed w s.
Proof.
  induction 1; [apply well_formed_new|by apply well_formed_exec].
Qed.

(** ** Settled answers survive the rest of the transaction *)

Lemma stat_settled_rtc w p r s s' :
  rtc (atom w) s s' → stat_settled p r s → stat_settled p r s'.
Proof. induction 1; eauto using stat_settled_atom. Qed.

Lemma listdir_settled_rtc w p r s s' :
  rtc (atom w) s s' → listdir_settled p r s → listdir_settled p r s'.
Proof. induction 1; eauto using listdir_settled_atom. Qed.

Lemma read_settled_rtc w p r s s' :
  rtc (atom w) s s' → read_settled p r s → read_settled p r s'.
Proof. induction 1; eauto using read_settled_atom. Qed.

Lemma md5_settled_rtc w p r s s' :
  rtc (atom w) s s' → md5_settled p r s → md5_settled p r s'.
Proof. induction 1; eauto using md5_settled_atom. Qed.

Lemma pyversion_atom w s s' : atom w s s' → pyversion s' = pyversion s.
Proof. by destruct 1. Qed.

Lemma pyversion_rtc w s s' : rtc (atom w) s s' → pyversion s' = pyversion s.
Proof.
  induction 1 as [|? ? ? Ha _ IH]; [done|].
  by rewrite IH, (pyversion_atom _ _ _ Ha).
Qed.


Lemma reachable_run_ops w ops s :
  reachable w s → reachable w (run_ops w ops s).
Proof.
  revert s. induction ops as [|o ops IH]; intros s Hr; simpl; [done|].
  apply IH. by constructor.
Qed.

(** What [stat] and [listdir] answer in a reachable state is what the
    primitive answered at some instant. *)
Lemma stat_from_world w p s :
  well_formed w s → ∃ t, os_stat w t p = (stat w p s).2.
Proof.
  intros Hwf.
  pose proof (stat_settles w p s) as Hs.
  pose proof (well_formed_rtc _ _ _ (stat_atoms w p s) Hwf) as [].
  destruct wf_provenance0 as (H1 & H2 & _).
  destruct ((stat w p s).2); simpl in Hs; [eauto|].
  destruct Hs; eauto.
Qed.

Lemma listdir_from_world w p s :
  well_formed w s → ∃ t, os_listdir w t p = (listdir w p s).2.
Proof.
  intros Hwf.
  pose proof (listdir_settles w p s) as Hs.
  pose proof (well_formed_rtc _ _ _ (listdir_atoms w p s) Hwf) as [].
  destruct wf_provenance0 as (_ & _ & H3 & H4 & _).
  destruct ((listdir w p s).2); simpl in Hs; [eauto|].
  destruct Hs; eauto.
Qed.

(** ** Further facts about the derived queries *)



Lemma isfile_total w s p :
  well_formed w s → os_errors_only w → ∃ b, (isfile w p s).2 = Return b.
Proof.
  intros Hwf [Hos _]. destruct (stat_from_world w p s Hwf) as [t Ht].
  rewrite isfile_unfold.
  destruct (stat w p s) as [s1 [st|e]]; simpl in *; [eauto|].
  rewrite (Hos t p e Ht). eauto.
Qed.

Lemma isfile_escapes w s p e :
  (isfile w p s).2 = Raise e → is_OSError e = false.
Proof.
  rewrite isfile_unfold.
  destruct (stat w p s) as [s1 [st|e']]; simpl; [done|].
  destruct (is_OSError e') eqn:He; simpl; [done|]. by intros [= <-].
Qed.

Lemma changing_world_os_errors_only : os_errors_only changing_world.
Proof.
  split; intros t q e; simpl; repeat case_bool_decide;
    intros; by simplify_eq.
Qed.

Lemma isfile_case_listed w s p names :
  (os_path_split w p).2 ≠ "" →
  (listdir w (os_path_split w p).1 s).2 = Return names →
  (isfile_case w p s).2 =
  if bool_decide ((os_path_split w p).2 ∈ names)
  then match (isfile w p (listdir w (os_path_split w p).1 s).1).2 with
       | Return b => Return b
       | Raise e => Raise e
       end
  else Return false.
Proof.
  intros Ht Hl. rewrite isfile_case_unfold.
  rewrite bool_decide_eq_false_2 by done.
  pose proof (isfile_escapes w (listdir w (os_path_split w p).1 s).1 p)
    as Hesc.
  destruct (listdir w (os_path_split w p).1 s) as [s1 [l|e]];
    simpl in *; simplify_eq.
  case_bool_decide; [|done].
  destruct (isfile w p s1) as [s2 [b|e]]; simpl in *; [done|].
  by rewrite (Hesc e eq_refl).
Qed.

(** ** The properties of the cache *)

(** C1.  Within one transaction, repeating [stat], [listdir],
    [read_with_python_encoding] or [md5] on a path gives the result of
    the first call, the same value or the same exception, whatever
    other calls except [flush] were made in between and whatever the
    file system has become: the second call is made against an
    arbitrary world [w'] and does not change the cache. *)
Theorem repeat_same_result (w w' : World) (s : FileSystemCache) (o : op)
    (ops : list op) :
  reachable w s →
  memoized o = true →
  no_flush ops = true →
  let s2 := run_ops w ops (exec w o s).1 in
  exec w' o s2 = (s2, (exec w o s).2).
Proof.
  intros Hr Hm Hnf s2.
  pose proof (run_ops_atoms w ops (exec w o s).1 Hnf) as Hrtc.
  fold s2 in Hrtc.
  assert (coupled s) as Hc by (by destruct (reachable_well_formed w s Hr)).
  destruct o as [p|p| | | | |p|p|]; try discriminate Hm; simpl in *;
    rewrite fmap_M_state in Hrtc; rewrite fmap_M_result;
    unfold fmap_M, bind, ret.
  - pose proof (stat_settled_rtc _ _ _ _ _ Hrtc (stat_settles w p s)) as Hs.
    rewrite (stat_settled_replay w' p _ _ Hs). by destruct ((stat w p s).2).
  - pose proof (listdir_settled_rtc _ _ _ _ _ Hrtc (listdir_settles w p s))
      as Hs.
    rewrite (listdir_settled_replay w' p _ _ Hs).
    by destruct ((listdir w p s).2).
  - pose proof (read_settled_rtc _ _ _ _ _ Hrtc (read_settles w p s)) as Hs.
    rewrite (read_settled_replay w' p _ _ Hs).
    by destruct ((read_with_python_encoding w p s).2).
  - pose proof (md5_settled_rtc _ _ _ _ _ Hrtc (md5_settles w p s Hc)) as Hs.
    rewrite (md5_settled_replay w' p _ _ Hs). by destruct ((md5 w p s).2).
Qed.

(** The file is there at the first [stat]; the directory is listed and
    the text is read in between; the second [stat] is made in a world
    where every path is missing. *)
Lemma repeat_same_result_witness :
  reachable changing_world (new_cache (3, 6)) ∧
  memoized (Stat "dir/Foo.py") = true ∧
  no_flush [Listdir "dir"; ReadText "dir/Foo.py"; Isfile "gone"] = true ∧
  exec null_world (Stat "dir/Foo.py")
    (run_ops changing_world
       [Listdir "dir"; ReadText "dir/Foo.py"; Isfile "gone"]
       (exec changing_world (Stat "dir/Foo.py") (new_cache (3, 6))).1)
  = (run_ops changing_world
       [Listdir "dir"; ReadText "dir/Foo.py"; Isfile "gone"]
       (exec changing_world (Stat "dir/Foo.py") (new_cache (3, 6))).1,
     (exec changing_world (Stat "dir/Foo.py") (new_cache (3, 6))).2).
Proof.
  split_and!; [constructor|reflexivity|reflexivity|].
  apply (repeat_same_result changing_world null_world (new_cache (3, 6))
           (Stat "dir/Foo.py")
           [Listdir "dir"; ReadText "dir/Foo.py"; Isfile "gone"]);
    [constructor|reflexivity|reflexivity].
Defined.

(** C2.  When [stat] (or [listdir]) fails for a path, every later call
    for that path in the transaction raises the same exception and
    leaves the cache, the clock and the trace as they are, so no
    primitive is called; and in a reachable state no primitive call
    occurs twice in the trace of the transaction. *)
Theorem error_memoization (w w' : World) (s : FileSystemCache) (p : string)
    (ops : list op) :
  reachable w s →
  no_flush ops = true →
  (∀ e, (stat w p s).2 = Raise e →
     let s2 := run_ops w ops (stat w p s).1 in
     stat w' p s2 = (s2, Raise e)) ∧
  (∀ e, (listdir w p s).2 = Raise e →
     let s2 := run_ops w ops (listdir w p s).1 in
     listdir w' p s2 = (s2, Raise e)) ∧
  NoDup (trace s).
Proof.
  intros Hr Hnf. split_and!.
  - intros e He s2.
    pose proof (stat_settles w p s) as Hs. rewrite He in Hs.
    apply stat_settled_replay.
    eapply stat_settled_rtc; [by apply run_ops_atoms|done].
  - intros e He s2.
    pose proof (listdir_settles w p s) as Hs. rewrite He in Hs.
    apply listdir_settled_replay.
    eapply listdir_settled_rtc; [by apply run_ops_atoms|done].
  - by destruct (reachable_well_formed w s Hr).
Qed.

Lemma error_memoization_witness :
  reachable changing_world (new_cache (3, 6)) ∧
  no_flush [Isdir "secret"; Exists "dir"] = true ∧
  stat foo_world "secret"
    (run_ops changing_world [Isdir "secret"; Exists "dir"]
       (stat changing_world "secret" (new_cache (3, 6))).1)
  = (run_ops changing_world [Isdir "secret"; Exists "dir"]
       (stat changing_world "secret" (new_cache (3, 6))).1,
     Raise (EACCES "secret")).
Proof.
  split_and!; [constructor|reflexivity|].
  apply (error_memoization changing_world foo_world (new_cache (3, 6))
           "secret" [Isdir "secret"; Exists "dir"]);
    [constructor|reflexivity|reflexivity].
Defined.

(** C3.  In a reachable state, a read that returns a text leaves a
    trace in which [os.stat] was called for the path before the
    decoder was; and when [stat] fails for the path, the read raises
    that failure, ends in the state [stat] alone would have left, and
    the path has no entry in [read_cache], [hash_cache] or
    [read_error_cache]. *)
Theorem stat_before_read (w : World) (s : FileSystemCache) (p : string) :
  reachable w s →
  (∀ s1 data, read_with_python_encoding w p s = (s1, Return data) →
     ∃ i j, (j < i)%nat ∧
       trace s1 !! j = Some (EvStat p) ∧
       trace s1 !! i = Some (EvDecode p)) ∧
  (∀ s1 e, stat w p s = (s1, Raise e) →
     read_with_python_encoding w p s = (s1, Raise e) ∧
     read_cache s1 !! p = None ∧
     hash_cache s1 !! p = None ∧
     read_error_cache s1 !! p = None).
Proof.
  intros Hr. apply reachable_well_formed in Hr as Hwf. split.
  - intros s1 data Hrd.
    pose proof (read_settles w p s) as Hs.
    pose proof (well_formed_rtc _ _ _ (read_atoms w p s) Hwf) as Hwf1.
    rewrite Hrd in Hs, Hwf1. simpl in *.
    destruct Hwf1 as [_ _ _ Hl _ Ho _].
    assert (EvDecode p ∈ trace s1) as Hin.
    { apply Hl. apply elem_of_union_l, elem_of_dom. by rewrite Hs. }
    apply list_elem_of_lookup in Hin as [i Hi].
    destruct (Ho i p Hi) as (j & Hj & Hjlk). eauto.
  - intros s1 e Hst.
    pose proof (stat_settles w p s) as Hs.
    pose proof (well_formed_rtc _ _ _ (stat_atoms w p s) Hwf) as Hwf1.
    destruct (stat_content w p s) as (Hc1 & Hc2 & Hc3 & _).
    rewrite Hst in Hs, Hwf1, Hc1, Hc2, Hc3. simpl in *.
    destruct Hs as [Hnone _].
    destruct Hwf1 as [_ Hcp Hsf _ _ _ _].
    apply not_elem_of_dom in Hnone.
    assert (read_cache s1 !! p = None) as Hr1.
    { apply not_elem_of_dom. set_solver. }
    assert (read_error_cache s1 !! p = None) as He1.
    { apply not_elem_of_dom. set_solver. }
    assert (hash_cache s1 !! p = None) as Hh1.
    { apply not_elem_of_dom. rewrite <- Hcp. by apply not_elem_of_dom. }
    split_and!; try done.
    rewrite read_unfold, <- Hc1, <- Hc2, Hr1, He1, Hst. done.
Qed.

Lemma stat_before_read_witness :
  reachable changing_world (new_cache (3, 6)) ∧
  read_with_python_encoding changing_world "secret" (new_cache (3, 6))
  = ((stat changing_world "secret" (new_cache (3, 6))).1,
     Raise (EACCES "secret")).
Proof.
  split; [constructor|].
  apply (proj2 (stat_before_read changing_world (new_cache (3, 6)) "secret"
                  (reachable_new _ _))
           (stat changing_world "secret" (new_cache (3, 6))).1
           (EACCES "secret")).
  reflexivity.
Defined.

(** C4, a path that the primitives reject before they reach the
    operating system: [isfile], [isdir] and [isfile_case] raise the
    [ValueError]. *)
Lemma derived_queries_raise_ValueError :
  (isfile null_world null_path (new_cache (3, 6))).2
    = Raise (mkExc ValueError "embedded null byte") ∧
  (isdir null_world null_path (new_cache (3, 6))).2
    = Raise (mkExc ValueError "embedded null byte") ∧
  (isfile_case null_world null_dir_file (new_cache (3, 6))).2
    = Raise (mkExc ValueError "embedded null byte").
Proof. split_and!; reflexivity. Qed.

(** C4, as the code has it.  [isfile], [isdir] and [isfile_case] turn
    every [OSError] of [stat] or [listdir] into [False]; an exception
    that leaves them is never an [OSError]; in a reachable state of a
    world whose primitives fail with [OSError]s only, the three return
    a boolean for every path; and a failure of [stat] or [listdir]
    that is not an [OSError] is not caught: [isfile], [isdir] and
    [isfile_case] raise that very exception, in the state the failed
    call left.  When [stat] succeeds, [isfile] and [isdir] return the
    file type test of its mode. *)
Theorem derived_queries_total (w : World) (s : FileSystemCache)
    (p : string) :
  (∀ s1 e, stat w p s = (s1, Raise e) → is_OSError e = true →
     isfile w p s = (s1, Return false) ∧ isdir w p s = (s1, Return false)) ∧
  (∀ s1 e, listdir w (os_path_split w p).1 s = (s1, Raise e) →
     is_OSError e = true →
     (isfile_case w p s).2 = Return false) ∧
  (∀ e, (isfile w p s).2 = Raise e ∨ (isdir w p s).2 = Raise e ∨
        (isfile_case w p s).2 = Raise e → is_OSError e = false) ∧
  (reachable w s → os_errors_only w →
     (∃ b, (isfile w p s).2 = Return b) ∧
     (∃ b, (isdir w p s).2 = Return b) ∧
     (∃ b, (isfile_case w p s).2 = Return b)) ∧
  (∀ s1 e, stat w p s = (s1, Raise e) → is_OSError e = false →
     isfile w p s = (s1, Raise e) ∧ isdir w p s = (s1, Raise e)) ∧
  (∀ s1 e, (os_path_split w p).2 ≠ "" →
     listdir w (os_path_split w p).1 s = (s1, Raise e) →
     isfile_case w p s
     = (s1, if is_OSError e then Return false else Raise e)) ∧
  (∀ s1 names s2 e, (os_path_split w p).2 ≠ "" →
     listdir w (os_path_split w p).1 s = (s1, Return names) →
     (os_path_split w p).2 ∈ names →
     stat w p s1 = (s2, Raise e) →
     isfile_case w p s
     = (s2, if is_OSError e then Return false else Raise e)) ∧
  (∀ s1 st, stat w p s = (s1, Return st) →
     isfile w p s = (s1, Return (S_ISREG (st_mode st))) ∧
     isdir w p s = (s1, Return (S_ISDIR (st_mode st)))).
Proof.
  split_and!.
  - intros s1 e Hst He. rewrite isfile_unfold, isdir_unfold, Hst, He. done.
  - intros s1 e Hl He. rewrite isfile_case_unfold, Hl, He.
    by case_bool_decide.
  - intros e [H|[H|H]].
    + by eapply isfile_escapes.
    + revert H. rewrite isdir_unfold.
      destruct (stat w p s) as [s1 [st|e']]; simpl; [done|].
      destruct (is_OSError e') eqn:He; simpl; [done|]. by intros [= <-].
    + revert H. rewrite isfile_case_unfold.
      case_bool_decide; [done|].
      destruct (listdir w (os_path_split w p).1 s) as [s1 [names|e']]; simpl.
      * case_bool_decide; [|done].
        pose proof (isfile_escapes w s1 p) as Hesc.
        destruct (isfile w p s1) as [s2 [b|e']]; simpl in *; [done|].
        rewrite (Hesc e' eq_refl); simpl. intros [= <-]. by apply Hesc.
      * destruct (is_OSError e') eqn:He; simpl; [done|]. by intros [= <-].
  - intros Hr Hos. apply reachable_well_formed in Hr as Hwf. split_and!.
    + by apply isfile_total.
    + destruct Hos as [Hos _].
      destruct (stat_from_world w p s Hwf) as [t Ht].
      rewrite isdir_unfold.
      destruct (stat w p s) as [s1 [st|e]]; simpl in *; [eauto|].
      rewrite (Hos t p e Ht). eauto.
    + rewrite isfile_case_unfold.
      case_bool_decide; [eauto|].
      destruct (listdir_from_world w (os_path_split w p).1 s Hwf) as [t Ht].
      pose proof (well_formed_rtc _ _ _
                    (listdir_atoms w (os_path_split w p).1 s) Hwf) as Hwf1.
      destruct (listdir w (os_path_split w p).1 s) as [s1 [names|e]];
        simpl in *.
      * case_bool_decide; [|eauto].
        destruct (isfile_total w s1 p Hwf1 Hos) as [b Hb].
        destruct (isfile w p s1) as [s2 [b'|e]]; simpl in *; [eauto|done].
      * destruct Hos as [_ Hos]. rewrite (Hos t _ e Ht). eauto.
  - intros s1 e Hst He. rewrite isfile_unfold, isdir_unfold, Hst, He. done.
  - intros s1 e Ht Hl. rewrite isfile_case_unfold, Hl.
    rewrite bool_decide_eq_false_2 by done. by destruct (is_OSError e).
  - intros s1 names s2 e Ht Hl Hin Hst. rewrite isfile_case_unfold, Hl.
    rewrite bool_decide_eq_false_2 by done.
    rewrite bool_decide_eq_true_2 by done.
    rewrite isfile_unfold, Hst.
    destruct (is_OSError e) eqn:He; [done|]. by rewrite He.
  - intros s1 st Hst. by rewrite isfile_unfold, isdir_unfold, Hst.
Qed.

(** The permission error of [secret] becomes [False]; the
    [ValueError] of a path with a null character is raised by
    [isfile], by [isdir] and, from [listdir], by [isfile_case]. *)
Lemma derived_queries_total_witness :
  reachable changing_world (new_cache (3, 6)) ∧
  os_errors_only changing_world ∧
  ((∃ b, (isfile changing_world "secret" (new_cache (3, 6))).2 = Return b) ∧
   (∃ b, (isdir changing_world "secret" (new_cache (3, 6))).2 = Return b) ∧
   (∃ b, (isfile_case changing_world "secret" (new_cache (3, 6))).2
         = Return b)) ∧
  (isfile changing_world "secret" (new_cache (3, 6))
     = ((stat changing_world "secret" (new_cache (3, 6))).1, Return false) ∧
   isdir changing_world "secret" (new_cache (3, 6))
     = ((stat changing_world "secret" (new_cache (3, 6))).1, Return false)) ∧
  (isfile null_world null_path (new_cache (3, 6))
     = ((stat null_world null_path (new_cache (3, 6))).1,
        Raise (mkExc ValueError "embedded null byte")) ∧
   isdir null_world null_path (new_cache (3, 6))
     = ((stat null_world null_path (new_cache (3, 6))).1,
        Raise (mkExc ValueError "embedded null byte"))) ∧
  isfile_case null_world null_dir_file (new_cache (3, 6))
    = ((listdir null_world null_path (new_cache (3, 6))).1,
       Raise (mkExc ValueError "embedded null byte")).
Proof.
  pose proof (derived_queries_total changing_world (new_cache (3, 6))
                "secret") as (Hos & _ & _ & Htotal & _).
  pose proof (derived_queries_total null_world (new_cache (3, 6))
                null_path) as (_ & _ & _ & _ & Hraise & _).
  pose proof (derived_queries_total null_world (new_cache (3, 6))
                null_dir_file) as (_ & _ & _ & _ & _ & Hlist & _).
  split; [|split; [|split; [|split; [|split]]]].
  - constructor.
  - apply changing_world_os_errors_only.
  - apply Htotal; [constructor|apply changing_world_os_errors_only].
  - apply (Hos _ (EACCES "secret")); reflexivity.
  - apply Hraise; reflexivity.
  - apply (Hlist (listdir null_world null_path (new_cache (3, 6))).1
             (mkExc ValueError "embedded null byte")).
    + discriminate.
    + reflexivity.
Defined.

(** C5.  [exists] returns [True] when [stat] succeeds, [False] when
    [stat] raises a [FileNotFoundError], fresh or stored, and raises
    whatever else [stat] raises; so it returns [False] exactly when
    [stat] fails with [FileNotFoundError]. *)
Theorem exists_narrow (w : World) (s : FileSystemCache) (p : string) :
  (∀ s1 st, stat w p s = (s1, Return st) →
     exists_ w p s = (s1, Return true)) ∧
  (∀ s1 e, stat w p s = (s1, Raise e) → is_FileNotFoundError e = true →
     exists_ w p s = (s1, Return false)) ∧
  (∀ s1 e, stat w p s = (s1, Raise e) → is_FileNotFoundError e = false →
     exists_ w p s = (s1, Raise e)) ∧
  ((exists_ w p s).2 = Return false ↔
     ∃ e, (stat w p s).2 = Raise e ∧ is_FileNotFoundError e = true).
Proof.
  rewrite exists_unfold.
  destruct (stat w p s) as [s1 [st|e]]; simpl.
  - split_and!; intros; simplify_eq; try done.
    split; [done|]. by intros (? & ? & ?).
  - destruct (is_FileNotFoundError e) eqn:He; simpl.
    + split_and!; intros; simplify_eq; try done; try congruence.
      split; eauto.
    + split_and!; intros; simplify_eq; try done; try congruence.
      split; [done|]. intros (e' & ? & ?). simplify_eq. congruence.
Qed.

Lemma exists_narrow_witness :
  exists_ changing_world "secret" (new_cache (3, 6))
  = ((stat changing_world "secret" (new_cache (3, 6))).1,
     Raise (EACCES "secret")) ∧
  exists_ changing_world "missing" (new_cache (3, 6))
  = ((stat changing_world "missing" (new_cache (3, 6))).1, Return false).
Proof.
  split.
  - apply (proj1 (proj2 (proj2 (exists_narrow changing_world
                                  (new_cache (3, 6)) "secret"))));
      reflexivity.
  - apply (proj1 (proj2 (exists_narrow changing_world
                           (new_cache (3, 6)) "missing"))
             _ (ENOENT "missing")); reflexivity.
Defined.

(** C6.  [isfile_case] returns [False] without touching the cache when
    the last component of the path is empty.  Otherwise it returns
    [True] exactly when [listdir] of the parent succeeds, the last
    component is in the listing with its exact spelling, and [isfile]
    of the path, asked next, returns [True]; and it returns [False]
    when [listdir] of the parent fails with an [OSError].  On a POSIX
    platform where [dir] always lists the single entry [Foo.py], a
    regular file, in every reachable state: [dir/Foo.py] gives [True];
    [dir/foo.py], [dir/missing.py], [dir/] and the empty path give
    [False]. *)
Theorem isfile_case_spec (w : World) (s : FileSystemCache) :
  (∀ p, (os_path_split w p).2 = "" → isfile_case w p s = (s, Return false)) ∧
  (∀ p, (os_path_split w p).2 ≠ "" →
     ((isfile_case w p s).2 = Return true ↔
      ∃ names,
        (listdir w (os_path_split w p).1 s).2 = Return names ∧
        (os_path_split w p).2 ∈ names ∧
        (isfile w p (listdir w (os_path_split w p).1 s).1).2 = Return true)) ∧
  (∀ p e, (os_path_split w p).2 ≠ "" →
     (listdir w (os_path_split w p).1 s).2 = Raise e →
     is_OSError e = true →
     isfile_case w p s = ((listdir w (os_path_split w p).1 s).1,
                          Return false)) ∧
  (reachable w s →
   (∀ q, os_path_split w q = posix_split q) →
   (∀ t, os_listdir w t "dir" = Return ["Foo.py"]) →
   (∀ t, ∃ st, os_stat w t "dir/Foo.py" = Return st ∧
               S_ISREG (st_mode st) = true) →
     (isfile_case w "dir/Foo.py" s).2 = Return true ∧
     (isfile_case w "dir/foo.py" s).2 = Return false ∧
     (isfile_case w "dir/missing.py" s).2 = Return false ∧
     (isfile_case w "dir/" s).2 = Return false ∧
     (isfile_case w "" s).2 = Return false).
Proof.
  split_and!.
  - intros p Ht. rewrite isfile_case_unfold.
    by rewrite bool_decide_eq_true_2.
  - intros p Ht. split.
    + rewrite isfile_case_unfold.
      rewrite bool_decide_eq_false_2 by done.
      destruct (listdir w (os_path_split w p).1 s) as [s1 [names|e]]; simpl.
      * case_bool_decide; [|done].
        intros Hres. exists names. split_and!; [done|done|].
        destruct (isfile w p s1) as [s2 [b|e]]; simpl in *; [done|].
        by destruct (is_OSError e).
      * by destruct (is_OSError e).
    + intros (names & Hl & Hin & Hf).
      rewrite (isfile_case_listed w s p names Ht Hl).
      rewrite bool_decide_eq_true_2 by done. by rewrite Hf.
  - intros p e Ht Hl He. rewrite isfile_case_unfold.
    rewrite bool_decide_eq_false_2 by done.
    destruct (listdir w (os_path_split w p).1 s) as [s1 [names|e']];
      simpl in *; simplify_eq. by rewrite He.
  - intros Hr Hsplit Hdir Hfile.
    apply reachable_well_formed in Hr as Hwf.
    assert ((listdir w "dir" s).2 = Return ["Foo.py"]) as Hl.
    { destruct (listdir_from_world w "dir" s Hwf) as [t Ht].
      by rewrite <- Ht. }
    pose proof (well_formed_rtc _ _ _ (listdir_atoms w "dir" s) Hwf) as Hwf1.
    assert (∀ p q, q ≠ "" → os_path_split w p = ("dir", q) →
              (isfile_case w p s).2 =
              if bool_decide (q ∈ ["Foo.py"])
              then match (isfile w p (listdir w "dir" s).1).2 with
                   | Return b => Return b
                   | Raise e => Raise e
                   end
              else Return false) as Hcase.
    { intros p q Hq Hsp.
      pose proof (isfile_case_listed w s p ["Foo.py"]) as H.
      rewrite Hsp in H. simpl in H. by apply H. }
    split_and!.
    + rewrite (Hcase "dir/Foo.py" "Foo.py"); [|done|by rewrite Hsplit].
      rewrite bool_decide_eq_true_2 by set_solver.
      rewrite isfile_unfold.
      destruct (stat_from_world w "dir/Foo.py" (listdir w "dir" s).1 Hwf1)
        as [t Ht].
      destruct (Hfile t) as (st & Hst & Hreg).
      rewrite Hst in Ht.
      destruct (stat w "dir/Foo.py" (listdir w "dir" s).1) as [s2 [st'|e]];
        simpl in *; simplify_eq. by rewrite Hreg.
    + rewrite (Hcase "dir/foo.py" "foo.py"); [|done|by rewrite Hsplit].
      rewrite bool_decide_eq_false_2; [done|].
      intros Hin. apply list_elem_of_singleton in Hin. discriminate.
    + rewrite (Hcase "dir/missing.py" "missing.py");
        [|done|by rewrite Hsplit].
      rewrite bool_decide_eq_false_2; [done|].
      intros Hin. apply list_elem_of_singleton in Hin. discriminate.
    + rewrite isfile_case_unfold, Hsplit. done.
    + rewrite isfile_case_unfold, Hsplit. done.
Qed.

Lemma isfile_case_spec_witness :
  reachable foo_world
    (run_ops foo_world [Exists "dir/foo.py"] (new_cache (3, 6))) ∧
  (isfile_case foo_world "dir/Foo.py"
     (run_ops foo_world [Exists "dir/foo.py"] (new_cache (3, 6)))).2
    = Return true ∧
  (isfile_case foo_world "dir/foo.py"
     (run_ops foo_world [Exists "dir/foo.py"] (new_cache (3, 6)))).2
    = Return false ∧
  (isfile_case foo_world "dir/missing.py"
     (run_ops foo_world [Exists "dir/foo.py"] (new_cache (3, 6)))).2
    = Return false ∧
  (isfile_case foo_world "dir/"
     (run_ops foo_world [Exists "dir/foo.py"] (new_cache (3, 6)))).2
    = Return false ∧
  (isfile_case foo_world ""
     (run_ops foo_world [Exists "dir/foo.py"] (new_cache (3, 6)))).2
    = Return false.
Proof.
  assert (reachable foo_world
            (run_ops foo_world [Exists "dir/foo.py"] (new_cache (3, 6))))
    as Hr.
  { apply reachable_run_ops. constructor. }
  split; [exact Hr|].
  apply (proj2 (proj2 (proj2 (isfile_case_spec foo_world
                                (run_ops foo_world [Exists "dir/foo.py"]
                                   (new_cache (3, 6))))))
           Hr).
  - reflexivity.
  - reflexivity.
  - intros t. exists regular_file. split; reflexivity.
Defined.

(** C7.  In a reachable state, when a read returns a text, there is a
    call of the decoder that returned this text together with a digest
    [h]; [md5] returns [h], whether it is called instead of the read
    or at any later point of the transaction; and the later calls of
    [md5] and of the read are answered from the dictionaries: they
    leave the cache, the clock and the trace unchanged, whatever the
    world [w'] would answer. *)
Theorem fingerprint_coupling (w w' : World) (s : FileSystemCache)
    (p : string) (ops : list op) :
  reachable w s →
  no_flush ops = true →
  ∀ s1 data, read_with_python_encoding w p s = (s1, Return data) →
    ∃ h t,
      util_read_with_python_encoding w t p (pyversion s) = Return (data, h) ∧
      md5 w p s = (s1, Return h) ∧
      let s2 := run_ops w ops s1 in
      md5 w' p s2 = (s2, Return h) ∧
      read_with_python_encoding w' p s2 = (s2, Return data).
Proof.
  intros Hr Hnf s1 data Hrd.
  apply reachable_well_formed in Hr as Hwf.
  pose proof (read_settles w p s) as Hs.
  pose proof (read_atoms w p s) as Hrtc.
  rewrite Hrd in Hs, Hrtc. simpl in *.
  pose proof (well_formed_rtc _ _ _ Hrtc Hwf) as Hwf1.
  destruct (wf_provenance _ _ Hwf1) as (_ & _ & _ & _ & Hprov & _).
  destruct (Hprov p data Hs) as (t & h & Hh & Hdec).
  rewrite (pyversion_rtc _ _ _ Hrtc) in Hdec.
  exists h, t. split; [done|split].
  - rewrite md5_unfold, Hrd.
    destruct (hash_cache s !! p) as [h0|] eqn:Hh0; [|by rewrite Hh].
    assert (is_Some (read_cache s !! p)) as [d Hd].
    { apply coupled_lookup; [by destruct Hwf|]. by rewrite Hh0. }
    revert Hrd. rewrite read_unfold, Hd. intros; simplify_eq. done.
  - pose proof (run_ops_atoms w ops s1 Hnf) as Hrtc2.
    split.
    + apply md5_settled_replay.
      eapply md5_settled_rtc; [done|]. simpl. by rewrite Hs.
    + apply read_settled_replay.
      eapply read_settled_rtc; [done|]. done.
Qed.

Lemma fingerprint_coupling_witness :
  reachable changing_world (new_cache (3, 6)) ∧
  no_flush [Stat "dir/foo.py"; Md5 "dir/Foo.py"; Listdir "dir"] = true ∧
  ∃ h t,
    util_read_with_python_encoding changing_world t "dir/Foo.py" (3, 6)
      = Return ("x = 1", h) ∧
    md5 changing_world "dir/Foo.py" (new_cache (3, 6))
      = ((read_with_python_encoding changing_world "dir/Foo.py"
            (new_cache (3, 6))).1, Return h) ∧
    let s2 := run_ops changing_world
                [Stat "dir/foo.py"; Md5 "dir/Foo.py"; Listdir "dir"]
                (read_with_python_encoding changing_world "dir/Foo.py"
                   (new_cache (3, 6))).1 in
    md5 foo_world "dir/Foo.py" s2 = (s2, Return h) ∧
    read_with_python_encoding foo_world "dir/Foo.py" s2
      = (s2, Return "x = 1").
Proof.
  split_and!; [constructor|reflexivity|].
  apply (fingerprint_coupling changing_world foo_world (new_cache (3, 6))
           "dir/Foo.py" [Stat "dir/foo.py"; Md5 "dir/Foo.py"; Listdir "dir"]
           (reachable_new _ _) eq_refl).
  reflexivity.
Defined.

(** C8.  Whatever the dictionaries hold, [FileSystemCache.flush]
    leaves all seven empty; [FileSystemMetaCache.flush], which it calls
    first, empties the four dictionaries of [stat] and [listdir] and
    leaves the three content dictionaries to the subclass. *)
Theorem flush_empties (s : FileSystemCache) :
  (stat_cache (flush s).1 = ∅ ∧
   listdir_cache (flush s).1 = ∅ ∧
   stat_error_cache (flush s).1 = ∅ ∧
   listdir_error_cache (flush s).1 = ∅ ∧
   read_cache (flush s).1 = ∅ ∧
   read_error_cache (flush s).1 = ∅ ∧
   hash_cache (flush s).1 = ∅) ∧
  (stat_cache (meta_flush s).1 = ∅ ∧
   listdir_cache (meta_flush s).1 = ∅ ∧
   stat_error_cache (meta_flush s).1 = ∅ ∧
   listdir_error_cache (meta_flush s).1 = ∅ ∧
   read_cache (meta_flush s).1 = read_cache s ∧
   read_error_cache (meta_flush s).1 = read_error_cache s ∧
   hash_cache (meta_flush s).1 = hash_cache s) ∧
  (flush s).2 = Return tt.
Proof. split_and!; reflexivity. Qed.

(** C9.  In every reachable state, no path has both a stored [stat]
    result and a stored [stat] error, nor both a stored listing and a
    stored [listdir] error, nor both a stored text and a stored read
    error; and every method, [flush] included, keeps it so from any
    state where it holds. *)
Theorem exclusive_invariant (w : World) (s : FileSystemCache) :
  (reachable w s → exclusive s) ∧
  (∀ o, exclusive s → exclusive (exec w o s).1).
Proof.
  split.
  - intros Hr. by destruct (reachable_well_formed w s Hr).
  - intros o He. destruct (is_flush o) eqn:Hf.
    + destruct o; try discriminate Hf. apply exclusive_flushed.
    + eapply exclusive_rtc; [by apply exec_atoms|done].
Qed.

Lemma exclusive_invariant_witness :
  exclusive (new_cache (3, 6)) ∧
  exclusive (exec changing_world (ReadText "dir/Foo.py") (new_cache (3, 6))).1.
Proof.
  assert (exclusive (new_cache (3, 6))) as H.
  { apply (proj1 (exclusive_invariant changing_world (new_cache (3, 6)))).
    constructor. }
  split; [exact H|].
  apply (proj2 (exclusive_invariant changing_world (new_cache (3, 6)))
           (ReadText "dir/Foo.py") H).
Defined.



(** ** Further facts: derived queries, growth, footprints, instants *)

Lemma isfile_of_stat w p s :
  isfile w p s = ((stat w p s).1, isfile_of (stat w p s).2).
Proof.
  rewrite isfile_unfold. destruct (stat w p s) as [s1 [st|e]]; simpl; [done|].
  by destruct (is_OSError e).
Qed.

Lemma isdir_of_stat w p s :
  isdir w p s = ((stat w p s).1, isdir_of (stat w p s).2).
Proof.
  rewrite isdir_unfold. destruct (stat w p s) as [s1 [st|e]]; simpl; [done|].
  by destruct (is_OSError e).
Qed.

Lemma exists_of_stat w p s :
  exists_ w p s = ((stat w p s).1, exists_of (stat w p s).2).
Proof.
  rewrite exists_unfold. destruct (stat w p s) as [s1 [st|e]]; simpl; [done|].
  by destruct (is_FileNotFoundError e).
Qed.

Lemma S_ISREG_not_S_ISDIR mode : S_ISREG mode = true → S_ISDIR mode = false.
Proof.
  unfold S_ISREG, S_ISDIR. intros H%Z.eqb_eq. rewrite H. done.
Qed.

Lemma grows_refl s : grows s s.
Proof. unfold grows. split_and!; done. Qed.

Lemma grows_trans s1 s2 s3 : grows s1 s2 → grows s2 s3 → grows s1 s3.
Proof.
  unfold grows. intros (?&?&?&?&?&?&?) (?&?&?&?&?&?&?).
  split_and!; by etrans.
Qed.

Lemma grows_atom w s s' : coupled s → atom w s s' → grows s s'.
Proof.
  intros Hc.
  destruct 1 as [q|q|q|q|q ? ? Hr|q]; unfold grows; simpl; split_and!;
    try done; try by apply insert_subseteq.
  apply insert_subseteq. apply eq_None_not_Some.
  rewrite <- (coupled_lookup s q Hc). by rewrite Hr; intros [? ?].
Qed.

Lemma grows_rtc w s s' : coupled s → rtc (atom w) s s' → grows s s'.
Proof.
  intros Hc Hrtc. induction Hrtc as [|s1 s2 s3 Ha _ IH]; [apply grows_refl|].
  eapply grows_trans; [by eapply grows_atom|].
  apply IH. by eapply coupled_atom.
Qed.

Lemma same_at_refl q s : same_at q s s.
Proof. unfold same_at. split_and!; done. Qed.

Lemma same_at_trans q s1 s2 s3 :
  same_at q s1 s2 → same_at q s2 s3 → same_at q s1 s3.
Proof.
  unfold same_at. intros (?&?&?&?&?&?&?) (?&?&?&?&?&?&?).
  split_and!; congruence.
Qed.

Lemma stat_same_at w p q s : q ≠ p → same_at q s (stat w p s).1.
Proof.
  intros Hne. rewrite stat_unfold. unfold same_at.
  repeat case_match; simpl; split_and!; try done;
    by rewrite lookup_insert_ne.
Qed.

Lemma listdir_same_at w p q s : q ≠ p → same_at q s (listdir w p s).1.
Proof.
  intros Hne. rewrite listdir_unfold. unfold same_at.
  repeat case_match; simpl; split_and!; try done;
    by rewrite lookup_insert_ne.
Qed.

Lemma read_same_at w p q s :
  q ≠ p → same_at q s (read_with_python_encoding w p s).1.
Proof.
  intros Hne. rewrite read_unfold.
  pose proof (stat_same_at w p q s Hne) as Hs.
  destruct (read_cache s !! p); [apply same_at_refl|].
  destruct (read_error_cache s !! p); [apply same_at_refl|].
  destruct (stat w p s) as [s1 [st|e]]; simpl in *; [|done].
  eapply same_at_trans; [exact Hs|].
  unfold same_at.
  repeat case_match; simpl; split_and!; try done;
    by rewrite lookup_insert_ne.
Qed.

Lemma md5_same_at w p q s : q ≠ p → same_at q s (md5 w p s).1.
Proof.
  intros Hne. rewrite md5_unfold.
  pose proof (read_same_at w p q s Hne) as Hr.
  repeat case_match; simplify_eq/=; try done; apply same_at_refl.
Qed.

Lemma stat_clock w p s :
  (clock s ≤ clock (stat w p s).1 ≤ S (clock s))%nat.
Proof. rewrite stat_unfold. repeat case_match; simpl; lia. Qed.

Lemma listdir_clock w p s :
  (clock s ≤ clock (listdir w p s).1 ≤ S (clock s))%nat.
Proof. rewrite listdir_unfold. repeat case_match; simpl; lia. Qed.

Lemma read_clock w p s :
  (clock s ≤ clock (read_with_python_encoding w p s).1 ≤ S (S (clock s)))%nat.
Proof.
  rewrite read_unfold. pose proof (stat_clock w p s).
  repeat case_match; simplify_eq/=; lia.
Qed.

Lemma timed_atom w s s' : atom w s s' → timed w s → timed w s'.
Proof.
  intros Hatom [HA HB].
  assert (∀ t, (t < clock s)%nat → (t < S (clock s))%nat) as Hlt by lia.
  destruct Hatom as [q r Hc He Hw|q e Hc He Hw|q l Hc He Hw|q e Hc He Hw
                    |q data h Hr He [st Hst] Hw|q e Hr He [st Hst] Hw];
    split; simpl.
  - intros p st. split_key q p.
    + intros [= <-]. exists (clock s). split; [lia|done].
    + intros Hp. destruct (HA p st Hp) as (t & ? & ?). eauto.
  - intros p data Hp.
    destruct (HB p data Hp) as (st & h & t1 & t2 & H1 & H2 & ? & ? & ? & ?).
    exists st, h, t1, t2. split_and!; try done; [|lia].
    rewrite lookup_insert_ne; [done|]. congruence.
  - intros p st Hp. destruct (HA p st Hp) as (t & ? & ?). eauto.
  - intros p data Hp.
    destruct (HB p data Hp) as (st & h & t1 & t2 & ? & ? & ? & ? & ? & ?).
    exists st, h, t1, t2. split_and!; try done; lia.
  - intros p st Hp. destruct (HA p st Hp) as (t & ? & ?). eauto.
  - intros p data Hp.
    destruct (HB p data Hp) as (st & h & t1 & t2 & ? & ? & ? & ? & ? & ?).
    exists st, h, t1, t2. split_and!; try done; lia.
  - intros p st Hp. destruct (HA p st Hp) as (t & ? & ?). eauto.
  - intros p data Hp.
    destruct (HB p data Hp) as (st & h & t1 & t2 & ? & ? & ? & ? & ? & ?).
    exists st, h, t1, t2. split_and!; try done; lia.
  - intros p st' Hp. destruct (HA p st' Hp) as (t & ? & ?). eauto.
  - intros p data'. split_key q p.
    + intros [= <-]. destruct (HA p st Hst) as (t1 & Ht1 & Hos).
      exists st, h, t1, (clock s). split_and!; try done; lia.
    + intros Hp.
      destruct (HB p data' Hp) as (st' & h' & t1 & t2 & ? & ? & ? & ? & ? & ?).
      exists st', h', t1, t2. split_and!; try done; lia.
  - intros p st' Hp. destruct (HA p st' Hp) as (t & ? & ?). eauto.
  - intros p data Hp.
    destruct (HB p data Hp) as (st' & h & t1 & t2 & ? & ? & ? & ? & ? & ?).
    exists st', h, t1, t2. split_and!; try done; lia.
Qed.

Lemma timed_rtc w s s' : rtc (atom w) s s' → timed w s → timed w s'.
Proof. induction 1; eauto using timed_atom. Qed.

Lemma timed_flushed w s : timed w (flushed s).
Proof. split; simpl; intros ? ?; by rewrite lookup_empty. Qed.

Lemma reachable_timed w s : reachable w s → timed w s.
Proof.
  induction 1 as [pv|s o _ IH].
  - apply (timed_flushed w (new_cache pv)).
  - destruct (is_flush o) eqn:Hf.
    + destruct o; try discriminate Hf. apply timed_flushed.
    + eapply timed_rtc; [by apply exec_atoms|done].
Qed.

Lemma isfile_settled_replay w p r s :
  stat_settled p r s → isfile w p s = (s, isfile_of r).
Proof.
  intros Hs. by rewrite isfile_of_stat, (stat_settled_replay w p r s Hs).
Qed.

Lemma isdir_settled_replay w p r s :
  stat_settled p r s → isdir w p s = (s, isdir_of r).
Proof.
  intros Hs. by rewrite isdir_of_stat, (stat_settled_replay w p r s Hs).
Qed.

Lemma exists_settled_replay w p r s :
  stat_settled p r s → exists_ w p s = (s, exists_of r).
Proof.
  intros Hs. by rewrite exists_of_stat, (stat_settled_replay w p r s Hs).
Qed.

Lemma isfile_case_repeat w w' p s s2 :
  os_path_split w' p = os_path_split w p →
  rtc (atom w) (isfile_case w p s).1 s2 →
  isfile_case w' p s2 = (s2, (isfile_case w p s).2).
Proof.
  intros Hsp. rewrite (isfile_case_unfold w'), (isfile_case_unfold w), Hsp.
  case_bool_decide as Ht; [done|].
  pose proof (listdir_settles w (os_path_split w p).1 s) as Hl.
  destruct (listdir w (os_path_split w p).1 s) as [s1 [names|e]];
    simpl in Hl.
  - case_bool_decide as Hin.
    + rewrite (isfile_of_stat w p s1).
      pose proof (stat_settles w p s1) as Hst.
      pose proof (stat_atoms w p s1) as Hrtc1.
      set (s3 := (stat w p s1).1) in *. set (r := (stat w p s1).2) in *.
      assert ((match isfile_of r with
               | Return b => (s3, Return b)
               | Raise e =>
                   if is_OSError e then (s3, Return false) else (s3, Raise e)
               end).1 = s3) as Hfst by (by repeat case_match).
      rewrite Hfst. intros Hrtc.
      pose proof (listdir_settled_rtc w _ (Return names) _ _ Hrtc1 Hl) as Hl3.
      pose proof (listdir_settled_rtc w _ (Return names) _ _ Hrtc Hl3) as Hl2.
      pose proof (stat_settled_rtc _ _ _ _ _ Hrtc Hst) as Hst2.
      rewrite (listdir_settled_replay w' _ (Return names) _ Hl2).
      rewrite bool_decide_eq_true_2 by done.
      rewrite (isfile_settled_replay w' p r s2 Hst2).
      by repeat case_match.
    + simpl. intros Hrtc.
      pose proof (listdir_settled_rtc w _ (Return names) _ _ Hrtc Hl) as Hl2.
      rewrite (listdir_settled_replay w' _ (Return names) _ Hl2).
      by rewrite bool_decide_eq_false_2.
  - assert ((if is_OSError e then (s1, Return false)
             else (s1, @Raise bool e)).1 = s1) as Hfst
      by (by destruct (is_OSError e)).
    rewrite Hfst. intros Hrtc.
    pose proof (listdir_settled_rtc w _ (Raise e) _ _ Hrtc Hl) as Hl2.
    rewrite (listdir_settled_replay w' _ (Raise e) _ Hl2).
    by destruct (is_OSError e).
Qed.

Lemma atom_calls w s s' :
  atom w s s' →
  ∃ ev, trace s' = (trace s ++ [ev])%list ∧ clock s' = S (clock s).
Proof. destruct 1; simpl; eauto. Qed.

Lemma rtc_calls w s s' :
  rtc (atom w) s s' →
  ∃ evs, trace s' = (trace s ++ evs)%list ∧
         clock s' = (clock s + length evs)%nat.
Proof.
  induction 1 as [s|s1 s2 s3 Ha _ (evs & Ht & Hc)].
  - exists []. by rewrite app_nil_r, Nat.add_0_r.
  - destruct (atom_calls _ _ _ Ha) as (ev & Ht1 & Hc1).
    exists (ev :: evs). rewrite Ht, Ht1, Hc, Hc1, <- app_assoc. simpl.
    split; [done|lia].
Qed.

Lemma exec_clock w o s :
  (clock (exec w o s).1 ≤ clock s + max_calls o)%nat.
Proof.
  destruct o as [p|p|p|p|p|p|p|p|]; simpl; rewrite ?fmap_M_state.
  - pose proof (stat_clock w p s). lia.
  - pose proof (listdir_clock w p s). lia.
  - rewrite isfile_of_stat. pose proof (stat_clock w p s). simpl. lia.
  - rewrite isfile_case_unfold.
    case_bool_decide; simpl; [lia|].
    pose proof (listdir_clock w (os_path_split w p).1 s) as Hl.
    destruct (listdir w (os_path_split w p).1 s) as [s1 [names|e]];
      simpl in *.
    + case_bool_decide; simpl; [|lia].
      rewrite isfile_of_stat. pose proof (stat_clock w p s1).
      repeat case_match; simplify_eq/=; lia.
    + destruct (is_OSError e); simpl; lia.
  - rewrite isdir_of_stat. pose proof (stat_clock w p s). simpl. lia.
  - rewrite exists_of_stat. pose proof (stat_clock w p s). simpl. lia.
  - pose proof (read_clock w p s). lia.
  - rewrite md5_unfold. pose proof (read_clock w p s).
    repeat case_match; simplify_eq/=; lia.
  - lia.
Qed.


(** ** Further properties of the cache *)

(** X1.  Right after [flush], whatever the dictionaries held before,
    [stat] and [listdir] return what the primitive answers at that
    instant, and the read and [md5] return the text and the digest the
    decoder gives at the next instant, unless [os.stat] fails first. *)
Theorem fresh_after_flush (w : World) (s : FileSystemCache) (p : string) :
  (stat w p (flush s).1).2 = os_stat w (clock s) p ∧
  (listdir w p (flush s).1).2 = os_listdir w (clock s) p ∧
  (read_with_python_encoding w p (flush s).1).2 =
    match os_stat w (clock s) p with
    | Raise e => Raise e
    | Return _ =>
        match util_read_with_python_encoding w (S (clock s)) p
                (pyversion s) with
        | Return (data, _) => Return data
        | Raise e => Raise e
        end
    end ∧
  (md5 w p (flush s).1).2 =
    match os_stat w (clock s) p with
    | Raise e => Raise e
    | Return _ =>
        match util_read_with_python_encoding w (S (clock s)) p
                (pyversion s) with
        | Return (_, md5hash) => Return md5hash
        | Raise e => Raise e
        end
    end.
Proof.
  assert (read_with_python_encoding w p (flushed s) =
          match os_stat w (clock s) p with
          | Raise e =>
              (set_stat_error_cache {[p := e]} (tick (EvStat p) (flushed s)),
               Raise e)
          | Return st =>
              let s1 := set_stat_cache {[p := st]}
                          (tick (EvStat p) (flushed s)) in
              match util_read_with_python_encoding w (S (clock s)) p
                      (pyversion s) with
              | Return (data, md5hash) =>
                  (set_hash_cache {[p := md5hash]}
                     (set_read_cache {[p := data]} (tick (EvDecode p) s1)),
                   Return data)
              | Raise e =>
                  (set_read_error_cache {[p := e]} (tick (EvDecode p) s1),
                   Raise e)
              end
          end) as Hread.
  { rewrite read_unfold, stat_unfold. simpl. rewrite !lookup_empty. simpl.
    destruct (os_stat w (clock s) p); simpl; [|done].
    by repeat case_match. }
  rewrite flush_unfold. simpl. split_and!.
  - rewrite stat_unfold. simpl. rewrite !lookup_empty.
    by destruct (os_stat w (clock s) p).
  - rewrite listdir_unfold. simpl. rewrite !lookup_empty.
    by destruct (os_listdir w (clock s) p).
  - rewrite Hread. by repeat case_match.
  - rewrite md5_unfold, Hread. simpl. rewrite lookup_empty.
    destruct (os_stat w (clock s) p); simpl; [|done].
    destruct (util_read_with_python_encoding w (S (clock s)) p (pyversion s))
      as [[data h]|e]; simpl; [|done].
    by rewrite lookup_singleton_eq.
Qed.

(** X2.  Within one transaction, repeating [isfile], [isfile_case],
    [isdir] or [exists] on a path gives the result of the first call
    and leaves the cache unchanged, whatever other calls except
    [flush] were made in between and whatever the file system has
    become, on the same platform. *)
Theorem derived_repeat (w w' : World) (s : FileSystemCache) (o : op)
    (ops : list op) :
  derived o = true →
  no_flush ops = true →
  (∀ q, os_path_split w' q = os_path_split w q) →
  let s2 := run_ops w ops (exec w o s).1 in
  exec w' o s2 = (s2, (exec w o s).2).
Proof.
  intros Hd Hnf Hsp s2.
  pose proof (run_ops_atoms w ops (exec w o s).1 Hnf) as Hrtc.
  fold s2 in Hrtc.
  destruct o as [|?|p|p|p|p| | |]; try discriminate Hd; simpl in *;
    rewrite fmap_M_state in Hrtc; rewrite fmap_M_result;
    unfold fmap_M, bind, ret.
  - rewrite isfile_of_stat in Hrtc. simpl in Hrtc.
    pose proof (stat_settled_rtc _ _ _ _ _ Hrtc (stat_settles w p s)) as Hs.
    rewrite (isfile_settled_replay w' p _ _ Hs), (isfile_of_stat w p s).
    simpl. by destruct (isfile_of (stat w p s).2).
  - rewrite (isfile_case_repeat w w' p s s2 (Hsp p) Hrtc).
    by destruct ((isfile_case w p s).2).
  - rewrite isdir_of_stat in Hrtc. simpl in Hrtc.
    pose proof (stat_settled_rtc _ _ _ _ _ Hrtc (stat_settles w p s)) as Hs.
    rewrite (isdir_settled_replay w' p _ _ Hs), (isdir_of_stat w p s).
    simpl. by destruct (isdir_of (stat w p s).2).
  - rewrite exists_of_stat in Hrtc. simpl in Hrtc.
    pose proof (stat_settled_rtc _ _ _ _ _ Hrtc (stat_settles w p s)) as Hs.
    rewrite (exists_settled_replay w' p _ _ Hs), (exists_of_stat w p s).
    simpl. by destruct (exists_of (stat w p s).2).
Qed.

(** The file is listed and regular at the first call; the second call
    is made in a world where every path is missing. *)
Lemma derived_repeat_witness :
  derived (IsfileCase "dir/Foo.py") = true ∧
  no_flush [Stat "secret"; Md5 "dir/Foo.py"] = true ∧
  exec null_world (IsfileCase "dir/Foo.py")
    (run_ops changing_world [Stat "secret"; Md5 "dir/Foo.py"]
       (exec changing_world (IsfileCase "dir/Foo.py") (new_cache (3, 6))).1)
  = (run_ops changing_world [Stat "secret"; Md5 "dir/Foo.py"]
       (exec changing_world (IsfileCase "dir/Foo.py") (new_cache (3, 6))).1,
     Return (VBool true)).
Proof.
  split_and!; [reflexivity|reflexivity|].
  apply (derived_repeat changing_world null_world (new_cache (3, 6))
           (IsfileCase "dir/Foo.py") [Stat "secret"; Md5 "dir/Foo.py"]);
    [reflexivity|reflexivity|reflexivity].
Defined.

(** X3.  In a reachable state, when a read returns a text, [stat] of
    the path, asked at any later point of the transaction, returns
    from the dictionaries a result that [os.stat] gave at an instant
    before the one at which the decoder returned the text: the text is
    never older than the reported metadata, also when the metadata is
    asked for after the read. *)
Theorem content_not_older_than_stat (w w' : World) (s : FileSystemCache)
    (p : string) (ops : list op) :
  reachable w s →
  no_flush ops = true →
  ∀ s1 data, read_with_python_encoding w p s = (s1, Return data) →
    ∃ st h t1 t2,
      (t1 < t2)%nat ∧
      os_stat w t1 p = Return st ∧
      util_read_with_python_encoding w t2 p (pyversion s)
        = Return (data, h) ∧
      let s2 := run_ops w ops s1 in
      stat w' p s2 = (s2, Return st).
Proof.
  intros Hr Hnf s1 data Hrd.
  pose proof (read_settles w p s) as Hs.
  pose proof (read_atoms w p s) as Hrtc.
  rewrite Hrd in Hs, Hrtc. simpl in *.
  pose proof (timed_rtc _ _ _ Hrtc (reachable_timed w s Hr)) as [_ HB].
  destruct (HB p data Hs) as (st & h & t1 & t2 & Hst & _ & Hlt & _ & Hos & Hd).
  rewrite (pyversion_rtc _ _ _ Hrtc) in Hd.
  exists st, h, t1, t2. split_and!; try done.
  apply stat_settled_replay.
  eapply stat_settled_rtc; [by apply run_ops_atoms|done].
Qed.

Lemma content_not_older_than_stat_witness :
  reachable changing_world (new_cache (3, 6)) ∧
  no_flush [Listdir "dir"; Isdir "secret"] = true ∧
  ∃ st h t1 t2,
    (t1 < t2)%nat ∧
    os_stat changing_world t1 "dir/Foo.py" = Return st ∧
    util_read_with_python_encoding changing_world t2 "dir/Foo.py" (3, 6)
      = Return ("x = 1", h) ∧
    let s2 := run_ops changing_world [Listdir "dir"; Isdir "secret"]
                (read_with_python_encoding changing_world "dir/Foo.py"
                   (new_cache (3, 6))).1 in
    stat null_world "dir/Foo.py" s2 = (s2, Return st).
Proof.
  split_and!; [constructor|reflexivity|].
  apply (content_not_older_than_stat changing_world null_world
           (new_cache (3, 6)) "dir/Foo.py" [Listdir "dir"; Isdir "secret"]
           (reachable_new _ _) eq_refl).
  reflexivity.
Defined.

(** X4.  Within one transaction the derived queries agree with each
    other.  Once [isfile] has returned [True] for a path, [isdir]
    returns [False] and [exists] returns [True] for it; once [isdir]
    has returned [True], [isfile] returns [False] and [exists] returns
    [True]; once [exists] has returned [False], [isfile] and [isdir]
    return [False]; once [isfile_case] has returned [True], so does
    [isfile].  The later calls leave the cache unchanged. *)
Theorem derived_queries_agree (w w' : World) (s : FileSystemCache)
    (p : string) (ops : list op) :
  no_flush ops = true →
  ((isfile w p s).2 = Return true →
     let s2 := run_ops w ops (isfile w p s).1 in
     isdir w' p s2 = (s2, Return false) ∧
     exists_ w' p s2 = (s2, Return true)) ∧
  ((isdir w p s).2 = Return true →
     let s2 := run_ops w ops (isdir w p s).1 in
     isfile w' p s2 = (s2, Return false) ∧
     exists_ w' p s2 = (s2, Return true)) ∧
  ((exists_ w p s).2 = Return false →
     let s2 := run_ops w ops (exists_ w p s).1 in
     isfile w' p s2 = (s2, Return false) ∧
     isdir w' p s2 = (s2, Return false)) ∧
  ((isfile_case w p s).2 = Return true →
     let s2 := run_ops w ops (isfile_case w p s).1 in
     isfile w' p s2 = (s2, Return true)).
Proof.
  intros Hnf.
  assert (∀ s0 r, stat_settled p r s0 →
            stat_settled p r (run_ops w ops s0)) as Hkeep.
  { intros s0 r. apply (stat_settled_rtc w). by apply run_ops_atoms. }
  split_and!.
  - rewrite isfile_of_stat. cbn [fst snd]. intros Hres. cbv zeta.
    pose proof (Hkeep _ _ (stat_settles w p s)) as Hs.
    rewrite (isdir_settled_replay w' p _ _ Hs),
      (exists_settled_replay w' p _ _ Hs).
    destruct ((stat w p s).2) as [st|e]; simpl in *.
    + injection Hres as Hreg. by rewrite (S_ISREG_not_S_ISDIR _ Hreg).
    + by destruct (is_OSError e).
  - rewrite isdir_of_stat. cbn [fst snd]. intros Hres. cbv zeta.
    pose proof (Hkeep _ _ (stat_settles w p s)) as Hs.
    rewrite (isfile_settled_replay w' p _ _ Hs),
      (exists_settled_replay w' p _ _ Hs).
    destruct ((stat w p s).2) as [st|e]; simpl in *.
    + injection Hres as Hdir.
      destruct (S_ISREG (st_mode st)) eqn:Hreg; [|done].
      apply S_ISREG_not_S_ISDIR in Hreg. congruence.
    + by destruct (is_OSError e).
  - rewrite exists_of_stat. cbn [fst snd]. intros Hres. cbv zeta.
    pose proof (Hkeep _ _ (stat_settles w p s)) as Hs.
    rewrite (isfile_settled_replay w' p _ _ Hs),
      (isdir_settled_replay w' p _ _ Hs).
    destruct ((stat w p s).2) as [st|e]; simpl in *; [done|].
    unfold is_FileNotFoundError, is_OSError in *.
    by destruct (exc_type e).
  - rewrite isfile_case_unfold.
    case_bool_decide; [done|].
    destruct (listdir w (os_path_split w p).1 s) as [s1 [names|e]]; simpl;
      [|by destruct (is_OSError e)].
    case_bool_decide; [|done].
    rewrite isfile_of_stat.
    pose proof (Hkeep _ _ (stat_settles w p s1)) as Hs.
    destruct (isfile_of (stat w p s1).2) as [b|e] eqn:Hf; cbn [fst snd].
    + intros [= ->]. cbv zeta.
      by rewrite (isfile_settled_replay w' p _ _ Hs), Hf.
    + by destruct (is_OSError e).
Qed.

Lemma derived_queries_agree_witness :
  no_flush [Listdir "dir"] = true ∧
  (isfile changing_world "dir/Foo.py" (new_cache (3, 6))).2 = Return true ∧
  let s2 := run_ops changing_world [Listdir "dir"]
              (isfile changing_world "dir/Foo.py" (new_cache (3, 6))).1 in
  isdir null_world "dir/Foo.py" s2 = (s2, Return false) ∧
  exists_ null_world "dir/Foo.py" s2 = (s2, Return true).
Proof.
  split_and!; [reflexivity|reflexivity|].
  apply (proj1 (derived_queries_agree changing_world null_world
                  (new_cache (3, 6)) "dir/Foo.py" [Listdir "dir"] eq_refl)).
  reflexivity.
Defined.

(** X5.  In a reachable state [md5] does what the read does: it ends
    in the same state, raises what the read raises, and returns a
    digest when the read returns a text; the subscript
    [self.hash_cache[path]] never fails. *)
Theorem md5_follows_read (w : World) (s : FileSystemCache) (p : string) :
  reachable w s →
  (md5 w p s).1 = (read_with_python_encoding w p s).1 ∧
  match (read_with_python_encoding w p s).2 with
  | Raise e => (md5 w p s).2 = Raise e
  | Return data =>
      ∃ h, (md5 w p s).2 = Return h ∧
           hash_cache (md5 w p s).1 !! p = Some h ∧
           read_cache (md5 w p s).1 !! p = Some data
  end.
Proof.
  intros Hr. apply reachable_well_formed in Hr as Hwf.
  pose proof (wf_coupled _ _ Hwf) as Hc.
  pose proof (read_settles w p s) as Hs.
  pose proof (coupled_rtc _ _ _ (read_atoms w p s) Hc) as Hc1.
  rewrite md5_unfold.
  destruct (hash_cache s !! p) as [h|] eqn:Hh.
  - assert (is_Some (read_cache s !! p)) as [d Hd].
    { apply coupled_lookup; [done|]. by rewrite Hh. }
    rewrite read_unfold, Hd. simpl. eauto.
  - destruct (read_with_python_encoding w p s) as [s1 [d|e]]; simpl in *;
      [|done].
    assert (is_Some (hash_cache s1 !! p)) as [h Hh1].
    { apply coupled_lookup; [done|]. by rewrite Hs. }
    rewrite Hh1. simpl. eauto.
Qed.

Lemma md5_follows_read_witness :
  reachable changing_world (new_cache (3, 6)) ∧
  (md5 changing_world "dir/Foo.py" (new_cache (3, 6))).1
  = (read_with_python_encoding changing_world "dir/Foo.py"
       (new_cache (3, 6))).1.
Proof.
  split; [constructor|].
  apply (proj1 (md5_follows_read changing_world (new_cache (3, 6))
                  "dir/Foo.py" (reachable_new _ _))).
Defined.

(** X6.  Within one transaction nothing is evicted or overwritten: in
    a reachable state, every entry of each of the seven dictionaries
    is still there, with the same value, after any calls other than
    [flush]. *)
Theorem entries_survive (w : World) (s : FileSystemCache) (ops : list op) :
  reachable w s →
  no_flush ops = true →
  grows s (run_ops w ops s).
Proof.
  intros Hr Hnf. apply (grows_rtc w).
  - by destruct (reachable_well_formed w s Hr).
  - by apply run_ops_atoms.
Qed.

Lemma entries_survive_witness :
  reachable changing_world
    (run_ops changing_world [Md5 "dir/Foo.py"] (new_cache (3, 6))) ∧
  no_flush [Stat "secret"; ReadText "dir/Foo.py"; Listdir "dir"] = true ∧
  grows
    (run_ops changing_world [Md5 "dir/Foo.py"] (new_cache (3, 6)))
    (run_ops changing_world
       [Stat "secret"; ReadText "dir/Foo.py"; Listdir "dir"]
       (run_ops changing_world [Md5 "dir/Foo.py"] (new_cache (3, 6)))).
Proof.
  assert (reachable changing_world
            (run_ops changing_world [Md5 "dir/Foo.py"] (new_cache (3, 6))))
    as Hr by (apply reachable_run_ops; constructor).
  split_and!; [exact Hr|reflexivity|].
  apply (entries_survive changing_world _
           [Stat "secret"; ReadText "dir/Foo.py"; Listdir "dir"] Hr eq_refl).
Defined.

(** X7.  A method stores something only for the path it is asked
    about, and [isfile_case] also for the parent directory it lists:
    at every other path the seven dictionaries are as they were. *)
Theorem other_paths_untouched (w : World) (s : FileSystemCache) (o : op)
    (q : string) :
  is_flush o = false →
  q ∉ touched w o →
  same_at q s (exec w o s).1.
Proof.
  intros Hf Hq.
  destruct o as [p|p|p|p|p|p|p|p|]; try discriminate Hf; simpl in *;
    rewrite fmap_M_state.
  - apply stat_same_at. set_solver.
  - apply listdir_same_at. set_solver.
  - rewrite isfile_of_stat. apply stat_same_at. set_solver.
  - rewrite isfile_case_unfold.
    case_bool_decide; [apply same_at_refl|].
    assert (q ≠ (os_path_split w p).1) as Hhead by set_solver.
    assert (q ≠ p) as Hp by set_solver.
    pose proof (listdir_same_at w _ q s Hhead) as Hl.
    destruct (listdir w (os_path_split w p).1 s) as [s1 [names|e]];
      simpl in *; [|by destruct (is_OSError e)].
    case_bool_decide; [|done].
    rewrite isfile_of_stat.
    pose proof (stat_same_at w p q s1 Hp) as Hs.
    eapply same_at_trans; [exact Hl|].
    destruct (isfile_of (stat w p s1).2) as [b|e]; simpl; [done|].
    by destruct (is_OSError e).
  - rewrite isdir_of_stat. apply stat_same_at. set_solver.
  - rewrite exists_of_stat. apply stat_same_at. set_solver.
  - apply read_same_at. set_solver.
  - apply md5_same_at. set_solver.
Qed.

Lemma other_paths_untouched_witness :
  is_flush (IsfileCase "dir/Foo.py") = false ∧
  ("secret" ∉ touched changing_world (IsfileCase "dir/Foo.py")) ∧
  same_at "secret"
    (run_ops changing_world [Stat "secret"] (new_cache (3, 6)))
    (exec changing_world (IsfileCase "dir/Foo.py")
       (run_ops changing_world [Stat "secret"] (new_cache (3, 6)))).1.
Proof.
  assert ("secret" ∉ touched changing_world (IsfileCase "dir/Foo.py")) as Hq.
  { change (touched changing_world (IsfileCase "dir/Foo.py"))
      with ({["dir/Foo.py"; "dir"]} : gset string).
    intros [H|H]%elem_of_union; apply elem_of_singleton in H; discriminate. }
  split_and!; [reflexivity|exact Hq|].
  apply (other_paths_untouched changing_world _ (IsfileCase "dir/Foo.py")
           "secret" eq_refl Hq).
Defined.

(** X8.  A method other than [flush] extends the trace of the
    transaction by the primitive calls it makes and advances the clock
    by their number: at most one for [stat], [listdir], [isfile],
    [isdir] and [exists], at most two for [isfile_case], the read and
    [md5]. *)
Theorem calls_bounded (w : World) (s : FileSystemCache) (o : op) :
  is_flush o = false →
  ∃ evs,
    trace (exec w o s).1 = (trace s ++ evs)%list ∧
    clock (exec w o s).1 = (clock s + length evs)%nat ∧
    (length evs ≤ max_calls o)%nat.
Proof.
  intros Hf.
  destruct (rtc_calls _ _ _ (exec_atoms w o s Hf)) as (evs & Ht & Hc).
  exists evs. split_and!; [done|done|].
  pose proof (exec_clock w o s). lia.
Qed.

Lemma calls_bounded_witness :
  is_flush (Md5 "dir/Foo.py") = false ∧
  ∃ evs,
    trace (exec changing_world (Md5 "dir/Foo.py") (new_cache (3, 6))).1
      = ([] ++ evs)%list ∧
    clock (exec changing_world (Md5 "dir/Foo.py") (new_cache (3, 6))).1
      = (0 + length evs)%nat ∧
    (length evs ≤ 2)%nat.
Proof.
  split; [reflexivity|].
  apply (calls_bounded changing_world (new_cache (3, 6)) (Md5 "dir/Foo.py")
           eq_refl).
Defined.

(** X9.  In a reachable state, once [stat] has failed for a path, the
    read and [md5] of that path raise the same exception for the rest
    of the transaction, without calling a primitive: the decoder is
    never tried on a path whose [stat] failed. *)
Theorem stat_failure_decides_read (w w' : World) (s : FileSystemCache)
    (p : string) (ops : list op) :
  reachable w s →
  no_flush ops = true →
  ∀ e, (stat w p s).2 = Raise e →
    let s2 := run_ops w ops (stat w p s).1 in
    read_with_python_encoding w' p s2 = (s2, Raise e) ∧
    md5 w' p s2 = (s2, Raise e) ∧
    EvDecode p ∉ trace s2.
Proof.
  intros Hr Hnf e He s2.
  apply reachable_well_formed in Hr as Hwf.
  pose proof (stat_settles w p s) as Hs. rewrite He in Hs.
  pose proof (well_formed_rtc _ _ _ (stat_atoms w p s) Hwf) as Hwf1.
  pose proof (run_ops_atoms w ops (stat w p s).1 Hnf) as Hrtc.
  fold s2 in Hrtc.
  pose proof (well_formed_rtc _ _ _ Hrtc Hwf1) as Hwf2.
  pose proof (stat_settled_rtc _ _ _ _ _ Hrtc Hs) as Hs2.
  destruct Hwf2 as [_ Hcp Hsf Hlog _ _ _].
  destruct Hs2 as [Hnone Herr].
  assert (p ∉ dom (read_cache s2) ∪ dom (read_error_cache s2)) as Hnot.
  { intros Hin. apply Hsf in Hin. by apply not_elem_of_dom in Hnone. }
  assert (read_cache s2 !! p = None) as Hr2.
  { apply not_elem_of_dom. set_solver. }
  assert (read_error_cache s2 !! p = None) as He2.
  { apply not_elem_of_dom. set_solver. }
  assert (hash_cache s2 !! p = None) as Hh2.
  { apply not_elem_of_dom. rewrite <- Hcp. by apply not_elem_of_dom. }
  assert (read_settled p (Raise e) s2) as Hrs.
  { simpl. split; [done|]. right. done. }
  split_and!.
  - by apply read_settled_replay.
  - apply md5_settled_replay. simpl. done.
  - intros Hin. by apply Hlog in Hin.
Qed.

Lemma stat_failure_decides_read_witness :
  reachable changing_world (new_cache (3, 6)) ∧
  no_flush [Listdir "dir"; Isfile "dir/Foo.py"] = true ∧
  let s2 := run_ops changing_world [Listdir "dir"; Isfile "dir/Foo.py"]
              (stat changing_world "secret" (new_cache (3, 6))).1 in
  read_with_python_encoding foo_world "secret" s2
    = (s2, Raise (EACCES "secret")) ∧
  md5 foo_world "secret" s2 = (s2, Raise (EACCES "secret")) ∧
  EvDecode "secret" ∉ trace s2.
Proof.
  split_and!; [constructor|reflexivity|].
  apply (stat_failure_decides_read changing_world foo_world
           (new_cache (3, 6)) "secret" [Listdir "dir"; Isfile "dir/Foo.py"]
           (reachable_new _ _) eq_refl (EACCES "secret")).
  reflexivity.
Defined.

(** X10.  In a reachable state the cache never makes an answer up:
    what [stat] returns or raises is what [os.stat] answered for that
    path at some instant, likewise for [listdir] and [os.listdir], and
    an exception of the read is one that [os.stat] or the decoder
    raised for that path. *)
Theorem answers_come_from_primitives (w : World) (s : FileSystemCache)
    (p : string) :
  reachable w s →
  (∃ t, os_stat w t p = (stat w p s).2) ∧
  (∃ t, os_listdir w t p = (listdir w p s).2) ∧
  (∀ e, (read_with_python_encoding w p s).2 = Raise e →
     (∃ t, os_stat w t p = Raise e) ∨
     (∃ t, util_read_with_python_encoding w t p (pyversion s) = Raise e)).
Proof.
  intros Hr. apply reachable_well_formed in Hr as Hwf. split_and!.
  - by apply stat_from_world.
  - by apply listdir_from_world.
  - intros e He.
    pose proof (read_settles w p s) as Hs. rewrite He in Hs.
    pose proof (read_atoms w p s) as Hrtc.
    pose proof (well_formed_rtc _ _ _ Hrtc Hwf) as Hwf1.
    destruct (wf_provenance _ _ Hwf1) as (_ & H2 & _ & _ & _ & H6).
    destruct Hs as [_ [Herr|[_ [_ Herr]]]].
    + right. destruct (H6 p e Herr) as [t Ht].
      rewrite (pyversion_rtc _ _ _ Hrtc) in Ht. eauto.
    + left. eauto.
Qed.

Lemma answers_come_from_primitives_witness :
  reachable changing_world
    (run_ops changing_world [Isdir "secret"; Listdir "dir"; Flush;
                             Exists "dir/Foo.py"] (new_cache (3, 6))) ∧
  ∃ t, os_stat changing_world t "dir/Foo.py"
       = (stat changing_world "dir/Foo.py"
            (run_ops changing_world [Isdir "secret"; Listdir "dir"; Flush;
                                     Exists "dir/Foo.py"]
               (new_cache (3, 6)))).2.
Proof.
  assert (reachable changing_world
            (run_ops changing_world [Isdir "secret"; Listdir "dir"; Flush;
                                     Exists "dir/Foo.py"] (new_cache (3, 6))))
    as Hr by (apply reachable_run_ops; constructor).
  split; [exact Hr|].
  apply (proj1 (answers_come_from_primitives changing_world _ "dir/Foo.py"
                  Hr)).
Defined.

